(** * pyrolite.util.lambdas.plot: profiles of lambdas and tetrads

    A shallow embedding of [pyrolite/util/lambdas/plot.py]: the three
    plotting helpers [plot_lambdas_components], [plot_lambdas_profiles] and
    [plot_tetrads_profiles], together with the fragment of numpy they use
    (shapes, broadcasting, matrix product, boolean masks, in-place update).

    Numbers.  A float64 is modelled as an exact rational or NaN: arithmetic
    is exact, so rounding and infinities are outside the model.  NaN is kept
    because the code writes it to suppress values.

    Arrays.  numpy arrays of rank 0, 1 and 2, with numpy's shape rules. *)

From stdpp Require Import base list strings pretty.
From Stdlib Require Import QArith Qabs.
Close Scope Q_scope.

Set Default Proof Using "Type".

(** ** float64 values *)

Inductive f64 : Type :=
| Fin (q : Q)
| NaN.

Definition nan : f64 := NaN.

Definition f64_lift2 (op : Q -> Q -> Q) (a b : f64) : f64 :=
  match a, b with
  | Fin x, Fin y => Fin (op x y)
  | _, _ => NaN
  end.

Definition fadd : f64 -> f64 -> f64 := f64_lift2 Qplus.
Definition fsub : f64 -> f64 -> f64 := f64_lift2 Qminus.
Definition fmul : f64 -> f64 -> f64 := f64_lift2 Qmult.
Definition fdiv : f64 -> f64 -> f64 := f64_lift2 Qdiv.

Definition of_int (n : Z) : f64 := Fin (inject_Z n).
Definition fzero : f64 := of_int 0.

(** Numerical equality of floats: equal rationals, or both NaN (as
    positions in an array; [feq] is not Python's [==]). *)
Definition feq (a b : f64) : Prop :=
  match a, b with
  | Fin x, Fin y => Qeq x y
  | NaN, NaN => True
  | _, _ => False
  end.

Definition is_nan (a : f64) : bool :=
  match a with NaN => true | Fin _ => false end.

Definition finite (a : f64) : bool := negb (is_nan a).

(** The value is a (finite) zero. *)
Definition is_zero (a : f64) : bool :=
  match a with Fin q => Qeq_bool q 0%Q | NaN => false end.

(** Numerical equality as a test; false on NaN. *)
Definition feqb (a b : f64) : bool :=
  match a, b with
  | Fin x, Fin y => Qeq_bool x y
  | _, _ => false
  end.

(** [np.isclose(a, b)] with the default tolerances [rtol=1e-05],
    [atol=1e-08]: [|a - b| <= atol + rtol * |b|]; false on NaN. *)
Definition rtol : Q := (1 # 100000)%Q.
Definition atol : Q := (1 # 100000000)%Q.

Definition isclose (a b : f64) : bool :=
  match a, b with
  | Fin x, Fin y => Qle_bool (Qabs (x - y)) (atol + rtol * Qabs y)%Q
  | _, _ => false
  end.

(** ** Exceptions *)

Inductive exn : Type :=
| ValueError
| IndexError
| TypeError.

Inductive result (A : Type) : Type :=
| Ok (a : A)
| Raise (e : exn).
Arguments Ok {A} a.
Arguments Raise {A} e.

#[export] Instance result_ret : MRet result := fun _ a => Ok a.
#[export] Instance result_bind : MBind result := fun _ _ k r =>
  match r with
  | Ok a => k a
  | Raise e => Raise e
  end.

#[export] Instance result_fmap : FMap result := fun _ _ f r =>
  match r with
  | Ok a => Ok (f a)
  | Raise e => Raise e
  end.

Definition returns {A} (r : result A) : bool :=
  match r with Ok _ => true | Raise _ => false end.

(** ** numpy arrays of rank at most two *)

Module np.

Inductive ndarray (A : Type) : Type :=
| Arr0 (x : A)                              (* shape ()      *)
| Arr1 (v : list A)                         (* shape (n,)    *)
| Arr2 (m : nat) (rows : list (list A)).    (* shape (n, m)  *)
Arguments Arr0 {A} x.
Arguments Arr1 {A} v.
Arguments Arr2 {A} m rows.

Definition shape {A} (a : ndarray A) : list nat :=
  match a with
  | Arr0 _ => []
  | Arr1 v => [length v]
  | Arr2 m rows => [length rows; m]
  end.

Definition ndim {A} (a : ndarray A) : nat := length (shape a).

(** [len(a)]: the length of the first axis (0 here for rank 0, where
    Python raises). *)
Definition len {A} (a : ndarray A) : nat := hd 0 (shape a).

(** Every row of a rank-2 array has the declared number of columns. *)
Definition wf {A} (a : ndarray A) : Prop :=
  match a with
  | Arr2 m rows => Forall (fun r => length r = m) rows
  | _ => True
  end.

Definition amap {A B} (f : A -> B) (a : ndarray A) : ndarray B :=
  match a with
  | Arr0 x => Arr0 (f x)
  | Arr1 v => Arr1 (f <$> v)
  | Arr2 m rows => Arr2 m ((fun r : list A => f <$> r) <$> rows)
  end.

(** Elementwise combination of two arrays of one shape (the operands of a
    ufunc after broadcasting); ranks that differ do not occur there. *)
Definition azip {A B C} (f : A -> B -> C) (a : ndarray A) (b : ndarray B)
  : ndarray C :=
  match a, b with
  | Arr0 x, Arr0 y => Arr0 (f x y)
  | Arr1 v, Arr1 w => Arr1 (zip_with f v w)
  | Arr2 m r, Arr2 _ s => Arr2 m (zip_with (zip_with f) r s)
  | _, _ => Arr1 []
  end.

(** [a[i]] of a rank-1 array and [a[i, j]] of a rank-2 array, for indices
    in range. *)
Definition item1 {A} (a : ndarray A) (i : nat) : option A :=
  match a with
  | Arr1 v => v !! i
  | _ => None
  end.

Definition item2 {A} (a : ndarray A) (i j : nat) : option A :=
  match a with
  | Arr2 _ rows => r ← rows !! i; r !! j
  | _ => None
  end.

Definition ravel {A} (a : ndarray A) : list A :=
  match a with
  | Arr0 x => [x]
  | Arr1 v => v
  | Arr2 _ rows => concat rows
  end.

(** [np.all] of a test on the elements. *)
Definition all {A} (P : A -> bool) (a : ndarray A) : bool :=
  forallb P (ravel a).

(** *** Broadcasting *)

(** One pair of dimensions, aligned from the right: equal, or one is 1. *)
Definition bdim (d1 d2 : nat) : option nat :=
  if decide (d1 = d2) then Some d1
  else if decide (d1 = 1) then Some d2
  else if decide (d2 = 1) then Some d1
  else None.

Fixpoint bshape_rev (r1 r2 : list nat) : option (list nat) :=
  match r1, r2 with
  | [], r => Some r
  | r, [] => Some r
  | d1 :: t1, d2 :: t2 =>
      d ← bdim d1 d2; t ← bshape_rev t1 t2; Some (d :: t)
  end.

(** [np.broadcast_shapes]; [None] is numpy's "operands could not be
    broadcast together". *)
Definition broadcast_shapes (s1 s2 : list nat) : option (list nat) :=
  reverse <$> bshape_rev (reverse s1) (reverse s2).

(** An axis of length 1 is repeated; any other axis already has length [n]. *)
Definition stretch {A} (n : nat) (l : list A) : list A :=
  match l with
  | [x] => replicate n x
  | _ => l
  end.

(** [np.broadcast_to(a, s)] for a shape [s] that [a] broadcasts to. *)
Definition broadcast_to {A} (s : list nat) (a : ndarray A) : ndarray A :=
  match s, a with
  | [n], Arr0 x => Arr1 (replicate n x)
  | [n], Arr1 v => Arr1 (stretch n v)
  | [n; m], Arr0 x => Arr2 m (replicate n (replicate m x))
  | [n; m], Arr1 v => Arr2 m (replicate n (stretch m v))
  | [n; m], Arr2 _ rows => Arr2 m (stretch n (stretch m <$> rows))
  | _, _ => a
  end.

(** A binary ufunc [f(a, b)] returning a new array. *)
Definition ufunc2 {A B C} (f : A -> B -> C) (a : ndarray A) (b : ndarray B)
  : result (ndarray C) :=
  match broadcast_shapes (shape a) (shape b) with
  | None => Raise ValueError
  | Some s => Ok (azip f (broadcast_to s a) (broadcast_to s b))
  end.

(** The in-place form [out op= b]: the result is stored in [out], so the
    broadcast shape has to be the shape of [out] ("non-broadcastable output
    operand" otherwise). *)
Definition ufunc2_inplace {A B} (f : A -> B -> A) (out : ndarray A)
    (b : ndarray B) : result (ndarray A) :=
  match broadcast_shapes (shape out) (shape b) with
  | None => Raise ValueError
  | Some s =>
      if decide (s = shape out)
      then Ok (azip f out (broadcast_to s b))
      else Raise ValueError
  end.

(** *** Construction and reshaping *)

(** [np.arange(lo, hi)] on integers. *)
Definition arange (lo hi : Z) : ndarray Z :=
  Arr1 ((fun k => (lo + Z.of_nat k)%Z) <$> seq 0 (Z.to_nat (hi - lo))).

(** [np.linspace(start, stop, num)] (endpoint included): the samples
    [k * step + start] with [step = (stop - start) / (num - 1)], the last
    one set to [stop]. *)
Definition linspace (start stop : f64) (num : nat) : ndarray f64 :=
  match num with
  | 0 => Arr1 []
  | 1 => Arr1 [start]
  | S d =>
      let step := fdiv (fsub stop start) (of_int (Z.of_nat d)) in
      Arr1 (((fun k => fadd (fmul (of_int (Z.of_nat k)) step) start) <$> seq 0 d)
              ++ [stop])
  end.

Definition astype_float (a : ndarray Z) : ndarray f64 := amap of_int a.

(** [astype(bool)] of an integer array: non-zero is true. *)
Definition astype_bool (a : ndarray Z) : ndarray bool :=
  amap (fun n => negb (n =? 0)%Z) a.

(** [np.atleast_2d]. *)
Definition atleast_2d {A} (a : ndarray A) : ndarray A :=
  match a with
  | Arr0 x => Arr2 1 [[x]]
  | Arr1 v => Arr2 (length v) [v]
  | Arr2 m rows => Arr2 m rows
  end.

(** [a.squeeze()]: the axes of length 1 are removed. *)
Definition squeeze {A} (a : ndarray A) : ndarray A :=
  match a with
  | Arr0 x => Arr0 x
  | Arr1 [x] => Arr0 x
  | Arr1 v => Arr1 v
  | Arr2 m rows =>
      match rows with
      | [r] => match r with [x] => Arr0 x | _ => Arr1 r end
      | _ => if decide (m = 1) then Arr1 (concat rows) else Arr2 m rows
      end
  end.

(** [a[:, None]] of a rank-1 array: a column. *)
Definition newaxis_col {A} (a : ndarray A) : result (ndarray A) :=
  match a with
  | Arr1 v => Ok (Arr2 1 ((fun x => [x]) <$> v))
  | _ => Raise IndexError
  end.

(** Column [j] of the rows, for the transpose. *)
Definition column {A} (j : nat) (rows : list (list A)) : list A :=
  omap (fun r => r !! j) rows.

(** [a.T]: rank 0 and 1 are unchanged, rank 2 is transposed. *)
Definition T {A} (a : ndarray A) : ndarray A :=
  match a with
  | Arr2 m rows => Arr2 (length rows) ((fun j => column j rows) <$> seq 0 m)
  | _ => a
  end.

(** *** Matrix product *)

Definition dot (u v : list f64) : f64 :=
  foldr fadd fzero (zip_with fmul u v).

(** [a @ b]: entry [(i, j)] is the inner product of row [i] of [a] with
    column [j] of [b]; a mismatch of the inner dimensions raises. *)
Definition matmul (a b : ndarray f64) : result (ndarray f64) :=
  match a, b with
  | Arr2 k ra, Arr2 m rb =>
      if decide (k = length rb)
      then Ok (Arr2 m ((fun r : list f64 =>
                          (fun j => dot r (column j rb)) <$> seq 0 m) <$> ra))
      else Raise ValueError
  | Arr2 k ra, Arr1 v =>
      if decide (k = length v)
      then Ok (Arr1 ((fun r => dot r v) <$> ra))
      else Raise ValueError
  | Arr1 u, Arr2 m rb =>
      if decide (length u = length rb)
      then Ok (Arr1 ((fun j => dot u (column j rb)) <$> seq 0 m))
      else Raise ValueError
  | Arr1 u, Arr1 v =>
      if decide (length u = length v)
      then Ok (Arr0 (dot u v))
      else Raise ValueError
  | _, _ => Raise ValueError
  end.

(** *** Boolean masks *)

(** [a[mask] = v] for a scalar [v]: a mask of the shape of [a] selects
    elements, a rank-1 mask on a rank-2 array selects rows, a rank-0 mask
    selects all or nothing; any other mask is an [IndexError]. *)
Definition setitem_mask {A} (a : ndarray A) (mask : ndarray bool) (v : A)
  : result (ndarray A) :=
  let put (x : A) (b : bool) := if b then v else x in
  if decide (shape mask = shape a) then Ok (azip put a mask)
  else
    match a, mask with
    | _, Arr0 b => Ok (amap (fun x => put x b) a)
    | Arr2 m rows, Arr1 bs =>
        if decide (length bs = length rows)
        then Ok (Arr2 m (zip_with (fun (r : list A) b => (fun x => put x b) <$> r)
                           rows bs))
        else Raise IndexError
    | _, _ => Raise IndexError
    end.

(** *** Reductions *)

Definition fmax (a b : f64) : f64 :=
  match a, b with
  | Fin x, Fin y => if Qle_bool x y then Fin y else Fin x
  | _, _ => NaN
  end.

Definition fmin (a b : f64) : f64 :=
  match a, b with
  | Fin x, Fin y => if Qle_bool x y then Fin x else Fin y
  | _, _ => NaN
  end.

(** [np.max] and [np.min] of all elements; an empty array raises. *)
Definition reduce (op : f64 -> f64 -> f64) (a : ndarray f64) : result f64 :=
  match ravel a with
  | [] => Raise ValueError
  | x :: l => Ok (foldl op x l)
  end.

Definition max := reduce fmax.
Definition min := reduce fmin.

End np.

(** ** Collaborators outside [plot.py]

    [plot.py] imports its numerical helpers from sibling modules of the
    package.  The plotting functions are stated over any implementation of
    these helpers; what the functions do with them is fixed by the code. *)

Class Collaborators : Type := {
  (** Styling options, forwarded untouched to the plotting calls. *)
  kwargs : Type;
  (** An existing matplotlib axes passed by the caller. *)
  axes_handle : Type;
  (** The parameter sets of the tetrad functions. *)
  tetrad_params : Type;
  (** What a caller may pass as [params] of the lambda plots. *)
  params_spec : Type;
  (** [tetrads.get_tetrads_function(params)]: the function [f(x, sum)]
      evaluating the tetrad basis at the positions [x]. *)
  get_tetrads_function :
    option tetrad_params -> np.ndarray f64 -> bool -> result (np.ndarray f64);
  (** The ionic radius approximated for atomic numbers, at a given charge
      and coordination. *)
  z_to_radii : Z -> Z -> np.ndarray f64 -> result (np.ndarray f64);
  (** [geochem.ind.get_ionic_radii(elements, charge, coordination)]. *)
  get_ionic_radii : list string -> Z -> Z -> list f64;
  (** [params._get_params(params, degree)]: one tuple per polynomial. *)
  _get_params : option params_spec -> nat -> list (list f64);
  (** The orthogonal polynomial defined by a parameter tuple, at [x]. *)
  poly : list f64 -> f64 -> f64;
}.

(** Modelled from the spec: [geochem.ind.REE] is imported by [plot.py] but
    defined elsewhere.  It lists the rare-earth elements of atomic numbers
    57 to 71 by symbol, leaving Pm out unless it is asked for
    ([dropPm=False]). *)
Definition REE (dropPm : bool) : list string :=
  let Elements :=
    ["La"; "Ce"; "Pr"; "Nd"; "Pm"; "Sm"; "Eu"; "Gd"; "Tb"; "Dy"; "Ho"; "Er";
     "Tm"; "Yb"; "Lu"] in
  if dropPm then filter (fun e => e <> "Pm") Elements else Elements.

(** Decimal digits, as [str.format] writes a length. *)
Definition is_digit (c : Ascii.ascii) : bool :=
  (48 <=? Ascii.nat_of_ascii c) && (Ascii.nat_of_ascii c <=? 57).

Fixpoint all_digits (s : string) : bool :=
  match s with
  | EmptyString => true
  | String c s => is_digit c && all_digits s
  end.

Section plot.
Context `{C : Collaborators}.

(** Modelled from the spec: [transform.REE_z_to_radii] is imported by
    [plot.py] but defined elsewhere.  It computes the ionic radius from the
    atomic number at fixed charge 3 and coordination 8. *)
Definition REE_z_to_radii (z : np.ndarray f64) : result (np.ndarray f64) :=
  z_to_radii 3 8 z.

(** Modelled from the spec: [eval.get_lambda_poly_func] is imported by
    [plot.py] but defined elsewhere.  [reconstruct(lambdas, params)] fails
    when the two lengths differ and is otherwise the function
    [x -> sum_i lambda_i * poly_i(x)], applied to every element of an
    array of x-values; no lambdas give the zero function. *)
Definition reconstruct (lambdas : list f64) (params : list (list f64))
    (x : f64) : f64 :=
  foldr fadd fzero (zip_with (fun w p => fmul w (poly p x)) lambdas params).

Definition get_lambda_poly_func (lambdas : list f64) (params : list (list f64))
  : result (np.ndarray f64 -> np.ndarray f64) :=
  if decide (length lambdas = length params)
  then Ok (np.amap (reconstruct lambdas params))
  else Raise ValueError.

(** *** What is drawn *)

(** How the axes of a plot came to be. *)
Inductive axes_origin : Type :=
| REE_v_radii_on (ax : option axes_handle)
    (* plot.spider.REE_v_radii(ax=ax) *)
| REE_v_radii_new (logy : bool) (index : string) (kw : kwargs)
    (* plot.spider.REE_v_radii(logy=logy, index=index, **kwargs) *)
| spider_new (values : np.ndarray f64) (indexes : np.ndarray f64)
    (logy : bool) (kw : kwargs).
    (* plot.spider.spider(values, indexes=indexes, logy=logy, **kwargs) *)

(** One drawing call on the axes. *)
Inductive artist : Type :=
| Plot (x y : np.ndarray f64) (label : string) (color : option string)
    (ls : option string) (kw : kwargs)
    (* ax.plot(x, y, label=label, color=color, ls=ls, **kwargs) *)
| Spider (values indexes : np.ndarray f64) (logy : bool)
    (linewidth : option Z) (set_ticks : bool) (marker : option string)
    (kw : kwargs).
    (* plot.spider.spider(values, ax=ax, indexes=indexes, logy=logy, ...) *)

Record axes : Type := {
  origin : axes_origin;
  xticklabels : option (list string);
  artists : list artist;
}.

(** *** [plot_lambdas_components] *)

(** The legend entry of a component with parameter tuple [p]:
    ["$r^{}: \lambda_{}".format(len(p), len(p))
     + ["\cdot f_{}".format(len(p)), ""][int(len(p) == 0)] + "$"]. *)
Definition component_label (p : list f64) : string :=
  "$r^" +:+ pretty (length p) +:+ ": \lambda_" +:+ pretty (length p)
  +:+ (if bool_decide (length p = 0) then ""
       else "\cdot f_" +:+ pretty (length p))
  +:+ "$".

(** The sample positions of the lambda plots: 100 radii from the largest
    to the smallest ionic radius of the REE (charge 3, coordination 8). *)
Definition radii_samples : result (np.ndarray f64) :=
  let radii := np.Arr1 (get_ionic_radii (REE true) 3 8) in
  hi ← np.max radii;
  lo ← np.min radii;
  mret (np.linspace hi lo 100).

Definition plot_lambdas_components (lambdas : list f64)
    (ax : option axes_handle) (params : option params_spec) (degree : nat)
    (kw : kwargs) : result axes :=
  let params := _get_params params degree in
  reconstructed_func ← get_lambda_poly_func lambdas params;
  let ax := REE_v_radii_on ax in
  xs ← radii_samples;
  let regression :=
    Plot xs (reconstructed_func xs) "Regression" (Some "k") None kw in
  components ← mapM (fun '(w, p) =>
      l_func ← get_lambda_poly_func [w] [p];
      mret (Plot xs (l_func xs) (component_label p) None (Some "--") kw))
    (zip lambdas params);
  mret {| origin := ax; xticklabels := None;
          artists := regression :: components |}.

(** *** [plot_lambdas_profiles] *)

Definition plot_lambdas_profiles (lambdas : list f64)
    (ax : option axes_handle) (params : option params_spec) (degree : nat)
    (kw : kwargs) : result axes :=
  let params := _get_params params degree in
  reconstructed_func ← get_lambda_poly_func lambdas params;
  let ax := REE_v_radii_on ax in
  xs ← radii_samples;
  mret {| origin := ax; xticklabels := None;
          artists := [Plot xs (reconstructed_func xs) "Regression" (Some "k")
                        None kw] |}.

(** *** [plot_tetrads_profiles] *)

(** The anchors of the four tetrads, [np.array([57, 64, 64, 71])]. *)
Definition anchors : np.ndarray Z := np.Arr1 [57; 64; 64; 71]%Z.

(** Row [i] of the anchor mask is false exactly at anchor [i]:
    the value of [(1 - np.isclose(z[:, None] - anchors.T, 0).T).astype(bool)]
    for [z = np.arange(57, 72)] (see [drop_zeros_unfold]). *)
Definition keep_mask : np.ndarray bool :=
  np.Arr2 15 ((fun a => (fun z => negb (z =? a)%Z) <$> np.ravel (np.arange 57 72))
                <$> np.ravel anchors).

(** The [drop0] block: near-zero markers and line samples become NaN. *)
Definition drop_zeros (z : np.ndarray Z) (ys liney : np.ndarray f64)
  : result (np.ndarray f64 * np.ndarray f64) :=
  yfltr ← np.ufunc2 isclose ys (np.Arr0 fzero);
  (* we can leave in markers which should actually be there at zero *)
  zcol ← np.newaxis_col z;
  d ← np.ufunc2 Z.sub zcol (np.T anchors);
  at_anchor ← np.ufunc2 isclose (np.astype_float d) (np.Arr0 fzero);
  keep ← np.ufunc2 Z.sub (np.Arr0 1%Z) (np.amap Z.b2z (np.T at_anchor));
  yfltr ← np.ufunc2_inplace andb yfltr (np.astype_bool keep);
  ys ← np.setitem_mask ys yfltr nan;
  linefltr ← np.ufunc2 isclose liney (np.Arr0 fzero);
  liney ← np.setitem_mask liney linefltr nan;
  mret (ys, liney).

Definition plot_tetrads_profiles (ts : np.ndarray f64)
    (params : option tetrad_params) (index : string) (logy drop0 : bool)
    (kw : kwargs) : result axes :=
  let f := get_tetrads_function None in
  let z := np.arange 57 72 in                                   (* marker *)
  let linez := np.linspace (of_int 57) (of_int 71) 1000 in      (* line *)
  let ts := np.atleast_2d ts in
  fz ← f (np.astype_float z) false;
  ys ← np.matmul ts fz;
  let ys := np.squeeze ys in
  flinez ← f linez false;
  liney ← np.matmul ts flinez;
  let liney := np.squeeze liney in
  xs ← REE_z_to_radii (np.astype_float z);
  linex ← REE_z_to_radii linez;
  let '(ax, ticks, xs, linex) :=
    if bool_decide (index ∈ ["radii"; "elements"])
    then (REE_v_radii_new logy index kw, None, xs, linex)
    else
      let index := "z" in
      (spider_new (np.Arr1 (replicate (np.len z) nan)) (np.astype_float z)
         logy kw,
       Some (REE false), np.astype_float z, linez) in
  '(ys, liney) ← (if drop0 then drop_zeros z ys liney else mret (ys, liney));
  mret {| origin := ax; xticklabels := ticks;
          artists :=
            [ (* scatter-only spider *)
              Spider ys xs logy (Some 0%Z) false None kw;
              (* line-only spider *)
              Spider liney linex logy None false (Some "") kw ] |}.

(** The tetrad function is finite at finite positions. *)
Definition basis_finite : Prop :=
  forall (xs : list f64) (basis : np.ndarray f64),
    np.all finite (np.Arr1 xs) = true ->
    get_tetrads_function None (np.Arr1 xs) false = Ok basis ->
    np.all finite basis = true.

(** *** Reading a drawn profile *)

(** The marker series is the first spider call, the line the second. *)
Definition marker_series (ax : axes) : option (np.ndarray f64 * np.ndarray f64) :=
  match artists ax with
  | Spider values indexes _ _ _ _ _ :: _ => Some (indexes, values)
  | _ => None
  end.

Definition line_series (ax : axes) : option (np.ndarray f64 * np.ndarray f64) :=
  match artists ax with
  | _ :: Spider values indexes _ _ _ _ _ :: _ => Some (indexes, values)
  | _ => None
  end.

(** Position [j] and value [(i, j)] of the markers, position [k] and value
    [(i, k)] of the line, for a tau array of several rows. *)
Definition marker_x (ax : axes) (j : nat) : option f64 :=
  s ← marker_series ax; np.item1 s.1 j.
Definition marker_y (ax : axes) (i j : nat) : option f64 :=
  s ← marker_series ax; np.item2 s.2 i j.
Definition line_x (ax : axes) (k : nat) : option f64 :=
  s ← line_series ax; np.item1 s.1 k.
Definition line_y (ax : axes) (i k : nat) : option f64 :=
  s ← line_series ax; np.item2 s.2 i k.

(** The tetrad function has one row per tetrad and one column per
    position. *)
Definition basis_ok : Prop :=
  forall xs : list f64, exists rows : list (list f64),
    get_tetrads_function None (np.Arr1 xs) false = Ok (np.Arr2 (length xs) rows)
    /\ length rows = 4.

End plot.

(** ** The same functions over a store of buffers

    numpy arrays are objects: [np.atleast_2d] and [squeeze] return views
    that share the buffer of their argument, [@] and [np.isclose] allocate,
    and [yfltr *= ...] and [ys[yfltr] = np.nan] write into an existing
    buffer.  Here the named arrays of the functions live in a store and
    every call says whether it allocates, aliases or writes; temporaries
    inside one expression stay values. *)

Module mem.

Inductive buffer : Type :=
| BFloat (d : list f64)
| BBool (d : list bool)
| BInt (d : list Z).

Abbreviation store := (list buffer).

(** An array object: its base buffer and the shape it is viewed with. *)
Record array : Type := { base : nat; ashape : list nat }.

Definition M (A : Type) : Type := store -> result (A * store).

#[export] Instance M_ret : MRet M := fun _ a h => Ok (a, h).
#[export] Instance M_bind : MBind M := fun _ _ k c h =>
  match c h with
  | Ok (a, h') => k a h'
  | Raise e => Raise e
  end.

Definition lift {A} (r : result A) : M A := fun h =>
  match r with
  | Ok a => Ok (a, h)
  | Raise e => Raise e
  end.

(** Row [i] of a buffer read with [m] columns. *)
Definition chunk {A} (m : nat) (d : list A) (i : nat) : list A :=
  take m (drop (i * m) d).

(** A flat buffer read with a shape. *)
Definition reshape {A} (s : list nat) (d : list A) : result (np.ndarray A) :=
  match s, d with
  | [], [x] => Ok (np.Arr0 x)
  | [n], _ => if decide (length d = n) then Ok (np.Arr1 d) else Raise ValueError
  | [n; m], _ =>
      if decide (length d = n * m)
      then Ok (np.Arr2 m (chunk m d <$> seq 0 n))
      else Raise ValueError
  | _, _ => Raise ValueError
  end.

Definition load_float (a : array) : M (np.ndarray f64) := fun h =>
  match h !! base a with
  | Some (BFloat d) => lift (reshape (ashape a) d) h
  | _ => Raise TypeError
  end.

Definition load_bool (a : array) : M (np.ndarray bool) := fun h =>
  match h !! base a with
  | Some (BBool d) => lift (reshape (ashape a) d) h
  | _ => Raise TypeError
  end.

Definition load_int (a : array) : M (np.ndarray Z) := fun h =>
  match h !! base a with
  | Some (BInt d) => lift (reshape (ashape a) d) h
  | _ => Raise TypeError
  end.

(** Coordinates are read as floats from a float or an integer array. *)
Definition load_coords (a : array) : M (np.ndarray f64) := fun h =>
  match h !! base a with
  | Some (BFloat d) => lift (reshape (ashape a) d) h
  | Some (BInt d) => lift (np.astype_float <$> reshape (ashape a) d) h
  | _ => Raise TypeError
  end.

(** A new array object on a buffer of its own. *)
Definition alloc (b : buffer) (s : list nat) : M array := fun h =>
  Ok ({| base := length h; ashape := s |}, h ++ [b]).

Definition new_float (v : np.ndarray f64) : M array :=
  alloc (BFloat (np.ravel v)) (np.shape v).
Definition new_bool (v : np.ndarray bool) : M array :=
  alloc (BBool (np.ravel v)) (np.shape v).
Definition new_int (v : np.ndarray Z) : M array :=
  alloc (BInt (np.ravel v)) (np.shape v).

(** Overwriting the buffer of an existing array object. *)
Definition write (a : array) (b : buffer) : M unit := fun h =>
  Ok (tt, <[base a := b]> h).

(** [np.atleast_2d(a)]: a view of [a]. *)
Definition atleast_2d (a : array) : array :=
  {| base := base a;
     ashape := match ashape a with
               | [] => [1; 1]
               | [n] => [1; n]
               | s => s
               end |}.

(** [len(a)]. *)
Definition len (a : array) : nat := hd 0 (ashape a).

(** [a.squeeze()]: a view of [a]. *)
Definition squeeze (a : array) : array :=
  {| base := base a; ashape := filter (fun d => d <> 1) (ashape a) |}.

(** [a @ b]: a new array. *)
Definition matmul (a b : array) : M array :=
  x ← load_float a; y ← load_float b;
  r ← lift (np.matmul x y);
  new_float r.

(** [np.isclose(a, 0)]: a new boolean array. *)
Definition isclose0 (a : array) : M array :=
  x ← load_float a;
  r ← lift (np.ufunc2 isclose x (np.Arr0 fzero));
  new_bool r.

(** [out *= m] on booleans: written into [out]. *)
Definition imul (out : array) (m : np.ndarray bool) : M unit :=
  x ← load_bool out;
  r ← lift (np.ufunc2_inplace andb x m);
  write out (BBool (np.ravel r)).

(** [a[mask] = v]: written into [a]. *)
Definition setitem_mask (a mask : array) (v : f64) : M unit :=
  x ← load_float a; m ← load_bool mask;
  r ← lift (np.setitem_mask x m v);
  write a (BFloat (np.ravel r)).

(** The array object [a] holds the value [v] in the store [h], in a buffer
    of the kind [box]. *)
Definition holds_in {A} (box : list A -> buffer) (h : store) (a : array)
    (v : np.ndarray A) : Prop :=
  exists d, h !! base a = Some (box d) /\ reshape (ashape a) d = Ok v.

Abbreviation holds := (holds_in BFloat).
Abbreviation holds_bool := (holds_in BBool).
Abbreviation holds_int := (holds_in BInt).

(** The coordinates read from [a]: floats, or integers taken as floats. *)
Definition coords (h : store) (a : array) (v : np.ndarray f64) : Prop :=
  holds h a v \/ exists zv, holds_int h a zv /\ v = np.astype_float zv.

(** The tetrad function and the radius transform return well-formed
    arrays. *)
Definition helpers_wf `{C : Collaborators} : Prop :=
  (forall x sum r,
     np.wf x -> get_tetrads_function None x sum = Ok r -> np.wf r) /\
  (forall x r, np.wf x -> z_to_radii 3 8 x = Ok r -> np.wf r).

(** An array object made after the store [h0] was taken. *)
Definition fresh (h0 : store) (a : array) : Prop := length h0 <= base a.

(** A computation that leaves the buffers of [h0] as they are and whose
    result satisfies [Q]. *)
Definition keeps (h0 : store) {A} (c : M A) (Q : A -> Prop) : Prop :=
  forall h a h', h0 `prefix_of` h -> c h = Ok (a, h') ->
    h0 `prefix_of` h' /\ Q a.

Section plot.
Context `{C : Collaborators}.

(** A call [g(x)] of a helper on coordinates; it returns a new array. *)
Definition call (g : np.ndarray f64 -> result (np.ndarray f64)) (x : array)
  : M array :=
  v ← load_coords x; r ← lift (g v); new_float r.

Definition radii_samples : M array :=
  radii ← new_float (np.Arr1 (get_ionic_radii (REE true) 3 8));
  r ← load_float radii;
  hi ← lift (np.max r);
  lo ← lift (np.min r);
  new_float (np.linspace hi lo 100).

(** The lambdas are read where the reconstruction is evaluated. *)
Definition load_lambdas (lambdas : array) : M (list f64) :=
  v ← load_float lambdas;
  match v with
  | np.Arr1 l => mret l
  | _ => lift (Raise ValueError)
  end.

Definition plot_lambdas_components (lambdas : array)
    (ax : option axes_handle) (params : option params_spec) (degree : nat)
    (kw : kwargs) : M axes :=
  let params := _get_params params degree in
  l ← load_lambdas lambdas;
  reconstructed_func ← lift (get_lambda_poly_func l params);
  let ax := REE_v_radii_on ax in
  xs ← radii_samples;
  x ← load_float xs;
  y ← new_float (reconstructed_func x);
  y ← load_float y;
  let regression := Plot x y "Regression" (Some "k") None kw in
  components ← mapM (fun '(w, p) =>
      l_func ← lift (get_lambda_poly_func [w] [p]);
      y ← new_float (l_func x);
      y ← load_float y;
      mret (Plot x y (component_label p) None (Some "--") kw))
    (zip l params);
  mret {| origin := ax; xticklabels := None;
          artists := regression :: components |}.

Definition plot_lambdas_profiles (lambdas : array)
    (ax : option axes_handle) (params : option params_spec) (degree : nat)
    (kw : kwargs) : M axes :=
  let params := _get_params params degree in
  l ← load_lambdas lambdas;
  reconstructed_func ← lift (get_lambda_poly_func l params);
  let ax := REE_v_radii_on ax in
  xs ← radii_samples;
  x ← load_float xs;
  y ← new_float (reconstructed_func x);
  y ← load_float y;
  mret {| origin := ax; xticklabels := None;
          artists := [Plot x y "Regression" (Some "k") None kw] |}.

Definition drop_zeros (z ys liney : array) : M unit :=
  yfltr ← isclose0 ys;
  zv ← load_int z;
  keep ← lift (
    zcol ← np.newaxis_col zv;
    d ← np.ufunc2 Z.sub zcol (np.T anchors);
    at_anchor ← np.ufunc2 isclose (np.astype_float d) (np.Arr0 fzero);
    keep ← np.ufunc2 Z.sub (np.Arr0 1%Z) (np.amap Z.b2z (np.T at_anchor));
    mret (np.astype_bool keep));
  imul yfltr keep;;
  setitem_mask ys yfltr nan;;
  linefltr ← isclose0 liney;
  setitem_mask liney linefltr nan.

Definition plot_tetrads_profiles (ts : array)
    (params : option tetrad_params) (index : string) (logy drop0 : bool)
    (kw : kwargs) : M axes :=
  let f := get_tetrads_function None in
  z ← new_int (np.arange 57 72);                                (* marker *)
  linez ← new_float (np.linspace (of_int 57) (of_int 71) 1000); (* line *)
  let ts := atleast_2d ts in
  fz ← call (fun x => f x false) z;
  ys ← matmul ts fz;
  let ys := squeeze ys in
  flinez ← call (fun x => f x false) linez;
  liney ← matmul ts flinez;
  let liney := squeeze liney in
  xs ← call REE_z_to_radii z;
  linex ← call REE_z_to_radii linez;
  '(ax, ticks, xs, linex) ←
    (if bool_decide (index ∈ ["radii"; "elements"])
     then mret (REE_v_radii_new logy index kw, None, xs, linex)
     else
       zv ← load_coords z;
       mret (spider_new (np.Arr1 (replicate (len z) nan)) zv logy kw,
             Some (REE false), z, linez));
  (if drop0 then drop_zeros z ys liney else mret tt);;
  y ← load_float ys; x ← load_coords xs;
  let markers := Spider y x logy (Some 0%Z) false None kw in
  y ← load_float liney; x ← load_coords linex;
  let line := Spider y x logy None false (Some "") kw in
  mret {| origin := ax; xticklabels := ticks; artists := [markers; line] |}.

End plot.

End mem.

(** ** A concrete set of collaborators

    An instance of the helpers on which the definitions can be run: four
    parabolic tetrads that vanish outside their quarter of the series (and
    so at the anchors 57, 64 and 71), a linear radius transform, a radius
    table and polynomials given by their roots. *)

Module sample.

(** One tetrad, centred at [centre] and of width [width]:
    [(x0 + |x0|) / 2] for [x0 = 1 - ((x - centre) / (width / 2))^2]. *)
Definition tetrad (centre width : Q) (x : f64) : f64 :=
  match x with
  | Fin x =>
      let g := ((x - centre) / (width / 2))%Q in
      let x0 := (1 - g * g)%Q in
      Fin (Qred ((x0 + Qabs x0) / 2))
  | NaN => NaN
  end.

Definition default_tetrads : list (Q * Q) :=
  [(235 # 4, 13 # 4); (249 # 4, 13 # 4); (263 # 4, 13 # 4); (277 # 4, 13 # 4)]%Q.

Definition tetrads_function (params : option (list (Q * Q)))
    (x : np.ndarray f64) (sum : bool) : result (np.ndarray f64) :=
  let params := default default_tetrads params in
  match x with
  | np.Arr1 xs =>
      let v := (fun '(c, w) => tetrad c w <$> xs) <$> params in
      if sum
      then Ok (np.Arr1 (foldr (zip_with fadd) (replicate (length xs) fzero) v))
      else Ok (np.Arr2 (length xs) v)
  | _ => Raise IndexError
  end.

(** Radii fall linearly from 1.16 at La (57) to 0.977 at Lu (71). *)
Definition linear_radii (charge coordination : Z) (z : np.ndarray f64)
  : result (np.ndarray f64) :=
  Ok (np.amap (fun x => fsub (Fin (116 # 100))
                          (fmul (Fin (183 # 14000)) (fsub x (of_int 57)))) z).

Definition radius_table : list (string * Q) :=
  [("La", 1160 # 1000); ("Ce", 1143 # 1000); ("Pr", 1126 # 1000);
   ("Nd", 1109 # 1000); ("Pm", 1093 # 1000); ("Sm", 1079 # 1000);
   ("Eu", 1066 # 1000); ("Gd", 1053 # 1000); ("Tb", 1040 # 1000);
   ("Dy", 1027 # 1000); ("Ho", 1015 # 1000); ("Er", 1004 # 1000);
   ("Tm", 994 # 1000); ("Yb", 985 # 1000); ("Lu", 977 # 1000)]%Q.

Definition ionic_radii (elements : list string) (charge coordination : Z)
  : list f64 :=
  (fun e : string =>
     match list_find (fun r : string * Q => fst r = e) radius_table with
     | Some (_, (_, r)) => Fin r
     | None => NaN
     end) <$> elements.

Definition root_poly (p : list f64) (x : f64) : f64 :=
  foldr (fun r acc => fmul (fsub x r) acc) (of_int 1) p.

(** Without explicit parameters: polynomials with roots among 1, 2, 3, ... *)
Definition default_params (params : option (list (list f64))) (degree : nat)
  : list (list f64) :=
  default ((fun d => (fun k => of_int (Z.of_nat k)) <$> seq 1 d) <$> seq 0 degree)
          params.

#[export] Instance collaborators : Collaborators := {|
  kwargs := unit;
  axes_handle := unit;
  tetrad_params := list (Q * Q);
  params_spec := list (list f64);
  get_tetrads_function := tetrads_function;
  z_to_radii := linear_radii;
  get_ionic_radii := ionic_radii;
  _get_params := default_params;
  poly := root_poly;
|}.

(** Inputs: one tau vector, and tau arrays with one row per tetrad. *)
Definition ones : np.ndarray f64 := np.Arr1 (replicate 4 (of_int 1)).
Definition zeros : np.ndarray f64 := np.Arr1 (replicate 4 fzero).
Definition zeros4 : np.ndarray f64 := np.Arr2 4 (replicate 4 (replicate 4 fzero)).
Definition eye4 : np.ndarray f64 :=
  np.Arr2 4 ((fun i => (fun j => if decide (i = j) then of_int 1 else fzero)
                         <$> seq 0 4) <$> seq 0 4).

(** A store that holds [eye4] and [ones], and the two array objects. *)
Definition store0 : mem.store :=
  [mem.BFloat (np.ravel eye4); mem.BFloat (np.ravel ones)].
Definition eye4_array : mem.array := {| mem.base := 0; mem.ashape := [4; 4] |}.
Definition ones_array : mem.array := {| mem.base := 1; mem.ashape := [4] |}.

End sample.

(** * Properties *)

(** The array operations are reasoned about through their lemmas. *)
Arguments np.arange : simpl never.
Arguments np.linspace : simpl never.
Arguments np.matmul : simpl never.
Arguments np.ufunc2 : simpl never.
Arguments np.ufunc2_inplace : simpl never.
Arguments np.setitem_mask : simpl never.
Arguments np.squeeze : simpl never.
Arguments np.astype_float : simpl never.
Arguments drop_zeros : simpl never.
Arguments keep_mask : simpl never.
Arguments REE_z_to_radii : simpl never.

(** ** numpy facts *)

Section numpy_facts.

Lemma bind_Ok {A B} (r : result A) (k : A -> result B) b :
  r ≫= k = Ok b <-> exists a, r = Ok a /\ k a = Ok b.
Proof.
  destruct r as [a|e]; simpl; split.
  - intros H. by exists a.
  - by intros (a' & [= <-] & H).
  - done.
  - by intros (a' & [=] & _).
Qed.

(** Two runs that are evaluated and then inspected. *)
Lemma both_Ok {A} (r0 r1 : result A) (P : A -> A -> Prop) :
  match r0, r1 with
  | Ok a0, Ok a1 => P a0 a1
  | _, _ => False
  end ->
  exists a0 a1, r0 = Ok a0 /\ r1 = Ok a1 /\ P a0 a1.
Proof. destruct r0 as [a0|], r1 as [a1|]; try done. by exists a0, a1. Qed.

Lemma bind_Ok_l {A B} (a : A) (k : A -> result B) : Ok a ≫= k = k a.
Proof. done. Qed.

Lemma one_Ok {A} (r : result A) (P : A -> Prop) :
  match r with
  | Ok a => P a
  | Raise _ => False
  end ->
  exists a, r = Ok a /\ P a.
Proof. destruct r as [a|]; [|done]. by exists a. Qed.

Lemma returns_Ok {A} (r : result A) : returns r = true -> exists a, r = Ok a.
Proof. destruct r as [a|]; [|done]. by exists a. Qed.

Lemma bshape_rev_nil_r r : np.bshape_rev r [] = Some r.
Proof. by destruct r. Qed.

Lemma bshape_rev_length r1 r2 s :
  np.bshape_rev r1 r2 = Some s -> length s = length r1 `max` length r2.
Proof.
  revert r2 s. induction r1 as [|d1 t1 IH]; intros [|d2 t2] s; simpl.
  - by intros [= <-].
  - by intros [= <-].
  - by intros [= <-].
  - destruct (np.bdim d1 d2) as [d|]; [|done]. simpl.
    destruct (np.bshape_rev t1 t2) as [t|] eqn:E; [|done]. simpl.
    intros [= <-]. simpl. by rewrite (IH _ _ E).
Qed.

Lemma broadcast_shapes_length s1 s2 s :
  np.broadcast_shapes s1 s2 = Some s -> length s = length s1 `max` length s2.
Proof.
  unfold np.broadcast_shapes.
  destruct (np.bshape_rev _ _) as [r|] eqn:E; [|done].
  intros [= <-]. rewrite length_reverse, (bshape_rev_length _ _ _ E).
  by rewrite !length_reverse.
Qed.

(** An output of rank below two cannot take a rank-2 operand in place. *)
Lemma inplace_rank_raises {A B} (f : A -> B -> A) out (b : np.ndarray B) :
  np.ndim out < np.ndim b -> np.ufunc2_inplace f out b = Raise ValueError.
Proof.
  unfold np.ndim, np.ufunc2_inplace. intros Hlt.
  destruct (np.broadcast_shapes _ _) as [s|] eqn:E; [|done].
  apply broadcast_shapes_length in E.
  case_decide as Hs; [|done]. subst s. lia.
Qed.

Lemma broadcast_shapes_scalar s : np.broadcast_shapes s [] = Some s.
Proof.
  unfold np.broadcast_shapes. simpl.
  by rewrite bshape_rev_nil_r; simpl; rewrite reverse_involutive.
Qed.

Lemma ufunc2_scalar_rank {A B C} (f : A -> B -> C) a (c : B) :
  exists y, np.ufunc2 f a (np.Arr0 c) = Ok y /\ np.ndim y = np.ndim a.
Proof.
  unfold np.ufunc2. simpl. rewrite broadcast_shapes_scalar.
  eexists; split; [done|].
  destruct a as [x|v|m rows]; [done|done|].
  simpl. destruct rows as [|r1 [|r2 rows]]; done.
Qed.

Lemma stretch_id {A} n (l : list A) : length l = n -> np.stretch n l = l.
Proof. destruct l as [|x [|y l]]; simpl; by intros <-. Qed.

Lemma stretch_rows_id {A} m (rows : list (list A)) :
  Forall (fun r => length r = m) rows -> np.stretch m <$> rows = rows.
Proof.
  induction 1 as [|r rows Hr _ IH]; [done|].
  by rewrite fmap_cons, IH, stretch_id.
Qed.

Lemma bdim_refl d : np.bdim d d = Some d.
Proof. unfold np.bdim. by case_decide. Qed.

Lemma bshape_rev_refl r : np.bshape_rev r r = Some r.
Proof.
  induction r as [|d r IH]; [done|]. simpl.
  by rewrite bdim_refl, IH.
Qed.

Lemma broadcast_shapes_refl s : np.broadcast_shapes s s = Some s.
Proof.
  unfold np.broadcast_shapes.
  by rewrite bshape_rev_refl; simpl; rewrite reverse_involutive.
Qed.

Lemma broadcast_to_id {A} (a : np.ndarray A) :
  np.wf a -> np.broadcast_to (np.shape a) a = a.
Proof.
  destruct a as [x|v|m rows]; simpl; [done| |].
  - intros _. by rewrite stretch_id.
  - intros Hwf. by rewrite stretch_rows_id, stretch_id.
Qed.

(** A ufunc against a scalar maps over the array. *)
Lemma ufunc2_scalar {A B D} (f : A -> B -> D) a (c : B) :
  np.wf a -> np.ufunc2 f a (np.Arr0 c) = Ok (np.amap (fun x => f x c) a).
Proof.
  unfold np.ufunc2. intros Hwf. simpl np.shape at 2.
  rewrite broadcast_shapes_scalar, broadcast_to_id by done.
  destruct a as [x|v|m rows]; simpl; [done| |].
  - by rewrite zip_with_replicate_r_eq.
  - rewrite zip_with_replicate_r_eq by done. do 2 f_equal.
    apply list_fmap_ext. intros i r Hr. unfold flip.
    rewrite zip_with_replicate_r_eq; [done|].
    eapply Forall_lookup_1 in Hwf; [|done]. done.
Qed.

(** An in-place ufunc with operands of one shape. *)
Lemma ufunc2_inplace_same {A B} (f : A -> B -> A) out (b : np.ndarray B) :
  np.shape b = np.shape out -> np.wf b ->
  np.ufunc2_inplace f out b = Ok (np.azip f out b).
Proof.
  unfold np.ufunc2_inplace. intros Hs Hwf.
  rewrite <- Hs, broadcast_shapes_refl, decide_True by done.
  by rewrite broadcast_to_id.
Qed.

Lemma setitem_mask_same {A} (a : np.ndarray A) mask v :
  np.shape mask = np.shape a ->
  np.setitem_mask a mask v
  = Ok (np.azip (fun x (b : bool) => if b then v else x) a mask).
Proof. unfold np.setitem_mask. intros Hs. by rewrite decide_True. Qed.

Lemma shape_amap {A B} (f : A -> B) a : np.shape (np.amap f a) = np.shape a.
Proof. destruct a; simpl; by rewrite ?length_fmap. Qed.

Lemma wf_amap {A B} (f : A -> B) a : np.wf a -> np.wf (np.amap f a).
Proof.
  destruct a as [x|v|m rows]; simpl; [done..|].
  intros Hwf. apply Forall_fmap. eapply Forall_impl; [done|].
  intros r Hr. simpl. by rewrite length_fmap.
Qed.

Lemma shape_azip {A B D} (f : A -> B -> D) a b :
  np.shape b = np.shape a -> np.shape (np.azip f a b) = np.shape a.
Proof.
  destruct a as [x|v|m r], b as [y|w|m' s]; simpl; try done.
  - intros [= H]. by rewrite length_zip_with, H, Nat.min_id.
  - intros [= H ->]. by rewrite length_zip_with, H, Nat.min_id.
Qed.

Lemma item2_amap {A B} (f : A -> B) a i j :
  np.item2 (np.amap f a) i j = f <$> np.item2 a i j.
Proof.
  destruct a as [x|v|m rows]; simpl; [done..|].
  rewrite list_lookup_fmap. destruct (rows !! i) as [r|]; simpl; [|done].
  by rewrite list_lookup_fmap.
Qed.

Lemma item2_azip {A B D} (f : A -> B -> D) a b i j x y :
  np.item2 a i j = Some x -> np.item2 b i j = Some y ->
  np.item2 (np.azip f a b) i j = Some (f x y).
Proof.
  destruct a as [?|?|m r], b as [?|?|m' s]; simpl; try done.
  rewrite lookup_zip_with.
  destruct (r !! i) as [ri|]; simpl; [|done].
  destruct (s !! i) as [si|]; simpl; [|done].
  intros Hx Hy. by rewrite lookup_zip_with, Hx, Hy.
Qed.

(** The product of two matrices is a well-formed matrix. *)
Lemma matmul_2d k ra m rb y :
  np.matmul (np.Arr2 k ra) (np.Arr2 m rb) = Ok y ->
  k = length rb /\
  y = np.Arr2 m ((fun r : list f64 =>
                    (fun j => np.dot r (np.column j rb)) <$> seq 0 m) <$> ra).
Proof. unfold np.matmul. case_decide; [|done]. by intros [= <-]. Qed.

Lemma matmul_2d_shape k ra m rb y :
  np.matmul (np.Arr2 k ra) (np.Arr2 m rb) = Ok y ->
  np.shape y = [length ra; m] /\ np.wf y.
Proof.
  intros (_ & ->)%matmul_2d. simpl. rewrite length_fmap. split; [done|].
  apply Forall_fmap, Forall_forall. intros r _. simpl.
  by rewrite length_fmap, length_seq.
Qed.

(** Several rows of several columns are left alone by [squeeze]. *)
Lemma squeeze_2d {A} (a : np.ndarray A) n m :
  np.shape a = [n; m] -> 1 < n -> 1 < m -> np.squeeze a = a.
Proof.
  destruct a as [x|v|m' rows]; simpl; [done..|].
  intros [= Hn ->] ? ?. unfold np.squeeze.
  destruct rows as [|r1 [|r2 rows]]; simpl in *; try lia.
  rewrite decide_False by lia. done.
Qed.

Lemma item2_defined {A} (a : np.ndarray A) n m i j :
  np.shape a = [n; m] -> np.wf a -> i < n -> j < m ->
  is_Some (np.item2 a i j).
Proof.
  destruct a as [x|v|m' rows]; simpl; [done..|].
  intros [= Hn ->] Hwf Hi Hj.
  destruct (lookup_lt_is_Some_2 rows i) as [r Hr]; [lia|].
  rewrite Hr. simpl. apply lookup_lt_is_Some_2.
  eapply Forall_lookup_1 in Hwf; [|done]. simpl in Hwf. lia.
Qed.

Lemma arange_Arr1 lo hi :
  exists v, np.arange lo hi = np.Arr1 v /\ length v = Z.to_nat (hi - lo).
Proof.
  unfold np.arange. eexists; split; [done|].
  by rewrite length_fmap, length_seq.
Qed.

Lemma linspace_Arr1 start stop num :
  exists v, np.linspace start stop num = np.Arr1 v /\ length v = num.
Proof.
  unfold np.linspace. destruct num as [|[|d]]; eexists; split; try done.
  rewrite length_app, length_fmap, length_seq. simpl. lia.
Qed.

(** *** Zero weights *)

Lemma is_zero_Fin v : is_zero v = true <-> exists q, v = Fin q /\ (q == 0)%Q.
Proof.
  destruct v as [q|]; simpl; split; try done.
  - intros H%Qeq_bool_iff. by exists q.
  - intros (q' & [= <-] & H). by apply Qeq_bool_iff.
  - by intros (q & [=] & _).
Qed.

Lemma is_zero_isclose v : is_zero v = true -> isclose v fzero = true.
Proof.
  intros (q & -> & Hq)%is_zero_Fin. unfold isclose, fzero, of_int.
  apply Qle_bool_iff. rewrite Hq. by vm_compute.
Qed.

Lemma dot_zero u col :
  Forall (fun t => is_zero t = true) u ->
  Forall (fun c => finite c = true) col ->
  is_zero (np.dot u col) = true.
Proof.
  intros Hu. revert col. induction Hu as [|t u Ht Hu IH]; intros col Hc.
  - done.
  - destruct Hc as [|c col Hc Hcol]; [done|].
    specialize (IH col Hcol). unfold np.dot in *. simpl.
    apply is_zero_Fin in Ht as (qt & -> & Hqt).
    apply is_zero_Fin in IH as (qd & -> & Hqd).
    destruct c as [qc|]; [|done]. simpl.
    apply Qeq_bool_iff. rewrite Hqt, Hqd. ring.
Qed.

Lemma column_finite j (rows : list (list f64)) :
  Forall (Forall (fun c => finite c = true)) rows ->
  Forall (fun c => finite c = true) (np.column j rows).
Proof.
  unfold np.column. induction 1 as [|r rows Hr _ IH]; simpl; [done|].
  destruct (r !! j) as [c|] eqn:Ec; [|done].
  constructor; [|done]. by eapply Forall_lookup_1 in Hr.
Qed.

Lemma all_Forall {A} (P : A -> bool) (a : np.ndarray A) :
  np.all P a = true <-> Forall (fun x => P x = true) (np.ravel a).
Proof.
  unfold np.all. rewrite <- Is_true_true, forallb_True.
  apply Forall_iff. intros x. apply Is_true_true.
Qed.

Lemma all_rows {A} (P : A -> bool) m (rows : list (list A)) :
  np.all P (np.Arr2 m rows) = true
  <-> Forall (Forall (fun x => P x = true)) rows.
Proof. by rewrite all_Forall; simpl; rewrite Forall_concat. Qed.

(** Zero weights against a finite matrix give zeros everywhere. *)
Lemma matmul_zero k ra m rb y :
  np.all is_zero (np.Arr2 k ra) = true ->
  np.all finite (np.Arr2 m rb) = true ->
  np.matmul (np.Arr2 k ra) (np.Arr2 m rb) = Ok y ->
  np.all is_zero y = true.
Proof.
  intros Hz%all_rows Hf%all_rows (_ & ->)%matmul_2d.
  apply all_rows, Forall_fmap. eapply Forall_impl; [exact Hz|].
  intros r Hr. simpl. apply Forall_fmap, Forall_forall. intros j _. simpl.
  apply dot_zero; [done|]. by apply column_finite.
Qed.

Lemma all_item2 {A} (P : A -> bool) (a : np.ndarray A) i j v :
  np.all P a = true -> np.item2 a i j = Some v -> P v = true.
Proof.
  destruct a as [x|w|m rows]; simpl; [done..|].
  intros Hall%all_rows Hv.
  destruct (rows !! i) as [r|] eqn:Er; [|done]. simpl in Hv.
  eapply Forall_lookup_1 in Hall; [|done].
  by eapply Forall_lookup_1 in Hall.
Qed.

Lemma ravel_squeeze_row {A} m (r : list A) :
  np.ravel (np.squeeze (np.Arr2 m [r])) = r.
Proof. unfold np.squeeze. by destruct r as [|x [|x' r]]. Qed.

Lemma wf_squeeze_row {A} m (r : list A) : np.wf (np.squeeze (np.Arr2 m [r])).
Proof. unfold np.squeeze. by destruct r as [|x [|x' r]]. Qed.

(** The filter of the line, on zeros: everything becomes NaN. *)
Lemma suppress_zeros a :
  np.wf a -> np.all is_zero a = true ->
  exists fltr out,
    np.ufunc2 isclose a (np.Arr0 fzero) = Ok fltr /\
    np.setitem_mask a fltr nan = Ok out /\
    np.all is_nan out = true.
Proof.
  intros Hwf Hz. eexists _, _.
  split; [by apply ufunc2_scalar|].
  split; [apply setitem_mask_same; by rewrite shape_amap|].
  assert (forall l : list f64, Forall (fun x => is_zero x = true) l ->
    Forall (fun x => is_nan x = true)
      (zip_with (fun x (b : bool) => if b then nan else x) l
         ((fun x => isclose x fzero) <$> l))) as Hrow.
  { induction 1 as [|x l Hx _ IH]; simpl; [done|].
    constructor; [|done]. by rewrite is_zero_isclose. }
  destruct a as [x|v|m rows].
  - apply all_Forall in Hz. simpl in Hz. apply Forall_cons_1 in Hz as [Hx _].
    apply all_Forall. simpl. rewrite is_zero_isclose by done.
    by repeat constructor.
  - apply all_Forall. apply all_Forall in Hz. by apply Hrow.
  - apply all_rows. apply all_rows in Hz. simpl.
    clear Hwf. induction Hz as [|r rows Hr _ IH]; simpl; [done|].
    constructor; [by apply Hrow|done].
Qed.

Lemma linspace_finite (a b : Q) n :
  np.all finite (np.linspace (Fin a) (Fin b) n) = true.
Proof.
  apply all_Forall. unfold np.linspace. destruct n as [|[|d]]; simpl.
  - done.
  - by repeat constructor.
  - constructor; [done|]. apply Forall_app. split; [|by repeat constructor].
    apply Forall_fmap, Forall_forall. by intros k _.
Qed.

Lemma astype_float_finite a : np.all finite (np.astype_float a) = true.
Proof.
  unfold np.astype_float.
  destruct a as [x|v|m rows]; [done| |].
  - apply all_Forall. simpl. apply Forall_fmap, Forall_forall. by intros k _.
  - apply all_rows. apply Forall_fmap, Forall_forall. intros r _. simpl.
    apply Forall_fmap, Forall_forall. by intros k _.
Qed.

(** The samples of [np.linspace] are evenly spaced. *)
Lemma linspace_item (a b : Q) (d k : nat) :
  0 < d -> k <= d ->
  exists q, np.item1 (np.linspace (Fin a) (Fin b) (S d)) k = Some (Fin q) /\
    (q == a + inject_Z (Z.of_nat k) * ((b - a) / inject_Z (Z.of_nat d)))%Q.
Proof.
  intros Hd Hk. unfold np.linspace. destruct d as [|d']; [lia|].
  set (d := S d') in *. cbn [np.item1].
  destruct (decide (k < d)) as [Hlt|Hge].
  - rewrite lookup_app_l by (by rewrite length_fmap, length_seq).
    rewrite list_lookup_fmap, lookup_seq_lt by done. simpl.
    eexists. split; [done|]. ring.
  - assert (k = d) as -> by lia.
    rewrite lookup_app_r by (by rewrite length_fmap, length_seq).
    rewrite length_fmap, length_seq, Nat.sub_diag. simpl.
    eexists. split; [done|]. field.
    intros H0. unfold Qeq in H0. simpl in H0. lia.
Qed.

End numpy_facts.

(** ** The tetrad profiles *)

Section tetrads_facts.
Context `{C : Collaborators}.

(** The mask expression of the [drop0] block is the anchor mask. *)
Lemma drop_zeros_unfold ys liney :
  drop_zeros (np.arange 57 72) ys liney =
  (yfltr ← np.ufunc2 isclose ys (np.Arr0 fzero);
   yfltr ← np.ufunc2_inplace andb yfltr keep_mask;
   ys ← np.setitem_mask ys yfltr nan;
   linefltr ← np.ufunc2 isclose liney (np.Arr0 fzero);
   liney ← np.setitem_mask liney linefltr nan;
   mret (ys, liney)).
Proof.
  unfold drop_zeros.
  destruct (np.ufunc2 isclose ys (np.Arr0 fzero)) as [yfltr|e]; [|done].
  reflexivity.
Qed.

(** One row of taus gives, after [squeeze], an array of rank below two. *)
Lemma single_row_squeeze k (r : list f64) b y :
  np.matmul (np.Arr2 k [r]) b = Ok y -> np.ndim (np.squeeze y) < 2.
Proof.
  unfold np.matmul.
  destruct b as [x|v|m rb]; [done| |]; case_decide; try done.
  - intros [= <-]. unfold np.ndim. simpl. lia.
  - intros [= <-]. unfold np.squeeze. simpl.
    destruct (_ <$> seq 0 m) as [|x [|x' l]]; unfold np.ndim; simpl; lia.
Qed.

Lemma drop_zeros_low_rank ys liney :
  np.ndim ys < 2 -> drop_zeros (np.arange 57 72) ys liney = Raise ValueError.
Proof.
  intros Hr. rewrite drop_zeros_unfold.
  destruct (ufunc2_scalar_rank isclose ys fzero) as (yfltr & -> & Hy).
  simpl. rewrite inplace_rank_raises; [done|].
  rewrite Hy. exact Hr.
Qed.

(** What a returning call has computed, step by step. *)
Lemma tetrads_inv ts params index logy drop0 kw ax :
  plot_tetrads_profiles ts params index logy drop0 kw = Ok ax <->
  exists fz y flinez l xs linex ys liney,
    let z := np.arange 57 72 in
    let linez := np.linspace (of_int 57) (of_int 71) 1000 in
    let radii := bool_decide (index ∈ ["radii"; "elements"]) in
    get_tetrads_function None (np.astype_float z) false = Ok fz /\
    np.matmul (np.atleast_2d ts) fz = Ok y /\
    get_tetrads_function None linez false = Ok flinez /\
    np.matmul (np.atleast_2d ts) flinez = Ok l /\
    REE_z_to_radii (np.astype_float z) = Ok xs /\
    REE_z_to_radii linez = Ok linex /\
    (if drop0 then drop_zeros z (np.squeeze y) (np.squeeze l)
     else Ok (np.squeeze y, np.squeeze l)) = Ok (ys, liney) /\
    ax = {| origin :=
              if radii then REE_v_radii_new logy index kw
              else spider_new (np.Arr1 (replicate 15 nan)) (np.astype_float z)
                     logy kw;
            xticklabels := if radii then None else Some (REE false);
            artists :=
              [Spider ys (if radii then xs else np.astype_float z) logy
                 (Some 0%Z) false None kw;
               Spider liney (if radii then linex else linez) logy None false
                 (Some "") kw] |}.
Proof.
  unfold plot_tetrads_profiles. split.
  - intros H.
    apply bind_Ok in H as (fz & Hfz & H).
    apply bind_Ok in H as (y & Hy & H).
    apply bind_Ok in H as (flinez & Hfl & H).
    apply bind_Ok in H as (l & Hl & H).
    apply bind_Ok in H as (xs & Hxs & H).
    apply bind_Ok in H as (linex & Hlx & H).
    exists fz, y, flinez, l, xs, linex.
    case_bool_decide.
    + apply bind_Ok in H as ([ys liney] & Hd & [= <-]).
      exists ys, liney. by repeat split.
    + apply bind_Ok in H as ([ys liney] & Hd & [= <-]).
      exists ys, liney. by repeat split.
  - intros (fz & y & flinez & l & xs & linex & ys & liney & H).
    destruct H as (Hfz & Hy & Hfl & Hl & Hxs & Hlx & Hd & ->).
    rewrite Hfz; simpl. rewrite Hy; simpl. rewrite Hfl; simpl.
    rewrite Hl; simpl. rewrite Hxs; simpl. rewrite Hlx; simpl.
    case_bool_decide; destruct drop0; simpl.
    all: try (rewrite Hd; done).
    all: by injection Hd as -> ->.
Qed.

Lemma keep_mask_shape : np.shape keep_mask = [4; 15] /\ np.wf keep_mask.
Proof. split; [done|]. unfold keep_mask. simpl. by repeat constructor. Qed.

Lemma keep_mask_item i j a z :
  np.item1 anchors i = Some a -> np.item1 (np.arange 57 72) j = Some z ->
  np.item2 keep_mask i j = Some (negb (z =? a)%Z).
Proof.
  unfold keep_mask, np.item1, np.item2.
  change (np.ravel anchors) with [57; 64; 64; 71]%Z.
  change (anchors) with (np.Arr1 [57; 64; 64; 71]%Z).
  destruct (arange_Arr1 57 72) as (zs & Ez & _). rewrite Ez.
  cbn [np.ravel]. intros Ha Hz.
  rewrite list_lookup_fmap, Ha. simpl.
  by rewrite list_lookup_fmap, Hz.
Qed.

(** The [drop0] block on arrays of four rows. *)
Lemma drop_zeros_four_rows ys liney :
  np.shape ys = [4; 15] -> np.wf ys -> np.wf liney ->
  drop_zeros (np.arange 57 72) ys liney =
  Ok (np.azip (fun x (b : bool) => if b then nan else x) ys
        (np.azip andb (np.amap (fun x => isclose x fzero) ys) keep_mask),
      np.azip (fun x (b : bool) => if b then nan else x) liney
        (np.amap (fun x => isclose x fzero) liney)).
Proof.
  intros Hs Hwf Hwfl. destruct keep_mask_shape as [Hk Hkwf].
  rewrite drop_zeros_unfold, !ufunc2_scalar by done. simpl.
  rewrite ufunc2_inplace_same by (by rewrite ?shape_amap, ?Hs). simpl.
  rewrite (setitem_mask_same ys)
    by (rewrite shape_azip; by rewrite shape_amap, ?Hs). simpl.
  by rewrite (setitem_mask_same liney) by (by rewrite shape_amap).
Qed.

(** With [basis_ok], four rows of taus give four rows of values. *)
Lemma tetrad_values_four_rows ts positions fp y :
  basis_ok -> np.shape ts = [4; 4] ->
  get_tetrads_function None (np.Arr1 positions) false = Ok fp ->
  np.matmul (np.atleast_2d ts) fp = Ok y ->
  np.shape y = [4; length positions] /\ np.wf y.
Proof.
  intros Hb Hts Hfp Hy.
  destruct (Hb positions) as (rows & Hrows & Hlen).
  rewrite Hrows in Hfp. injection Hfp as <-.
  destruct ts as [x|v|k tr]; simpl in Hts; [done..|].
  injection Hts as Hn ->. simpl in Hy.
  apply matmul_2d_shape in Hy. by rewrite Hn in Hy.
Qed.

(** The values of a call are those of the call without [drop0], filtered. *)
Lemma tetrads_drop0_inv ts params index logy kw ax0 :
  basis_ok -> np.shape ts = [4; 4] ->
  plot_tetrads_profiles ts params index logy false kw = Ok ax0 ->
  exists xs ys linex liney,
    marker_series ax0 = Some (xs, ys) /\
    line_series ax0 = Some (linex, liney) /\
    np.shape ys = [4; 15] /\ np.wf ys /\
    np.shape liney = [4; 1000] /\ np.wf liney /\
    exists ax1,
      plot_tetrads_profiles ts params index logy true kw = Ok ax1 /\
      marker_series ax1 =
        Some (xs, np.azip (fun x (b : bool) => if b then nan else x) ys
                    (np.azip andb (np.amap (fun x => isclose x fzero) ys)
                       keep_mask)) /\
      line_series ax1 =
        Some (linex, np.azip (fun x (b : bool) => if b then nan else x) liney
                       (np.amap (fun x => isclose x fzero) liney)).
Proof.
  intros Hb Hts H0.
  apply tetrads_inv in H0
    as (fz & y & fl & l & xs & linex & ys & liney & H0).
  destruct H0 as (Hfz & Hy & Hfl & Hl & Hxs & Hlx & Hd & ->).
  injection Hd as <- <-.
  destruct (arange_Arr1 57 72) as (zs & Ez & Hzs).
  destruct (linspace_Arr1 (of_int 57) (of_int 71) 1000) as (ls & El & Hls).
  assert (np.astype_float (np.arange 57 72) = np.Arr1 (of_int <$> zs)) as Ezf
    by (by rewrite Ez).
  pose proof Hfz as Hfz'. pose proof Hfl as Hfl'.
  rewrite Ezf in Hfz'. rewrite El in Hfl'.
  destruct (tetrad_values_four_rows _ _ _ _ Hb Hts Hfz' Hy) as [Hsy Hwy].
  destruct (tetrad_values_four_rows _ _ _ _ Hb Hts Hfl' Hl) as [Hsl Hwl].
  rewrite length_fmap, Hzs in Hsy. change (Z.to_nat (72 - 57)) with 15 in Hsy.
  rewrite Hls in Hsl.
  rewrite (squeeze_2d y 4 15) by (done || lia).
  rewrite (squeeze_2d l 4 1000) by (done || lia).
  eexists _, y, _, l. do 6 (split; [done|]).
  eexists. split.
  - apply tetrads_inv. exists fz, y, fl, l, xs, linex. eexists _, _.
    do 6 (split; [done|]). split; [|done].
    rewrite (squeeze_2d y 4 15) by (done || lia).
    rewrite (squeeze_2d l 4 1000) by (done || lia).
    by apply drop_zeros_four_rows.
  - done.
Qed.

(** C1 (amended).  With [drop0=True] and a tau array of four rows, one per
    tetrad: a marker close to 0 becomes NaN unless it sits, in row [i], at
    the anchor of tetrad [i] (57, 64, 64, 71 for rows 0 to 3), where it is
    kept; every other marker is unchanged.  The line has no exemption:
    every line value close to 0 becomes NaN, every other one is unchanged.
    The values before the filter are those drawn with [drop0=False]. *)
Theorem tetrads_drop0_four_rows ts params index logy kw ax0 :
  basis_ok -> np.shape ts = [4; 4] ->
  plot_tetrads_profiles ts params index logy false kw = Ok ax0 ->
  exists ax1 xs ys ys' linex liney liney',
    plot_tetrads_profiles ts params index logy true kw = Ok ax1 /\
    marker_series ax0 = Some (xs, ys) /\
    marker_series ax1 = Some (xs, ys') /\
    line_series ax0 = Some (linex, liney) /\
    line_series ax1 = Some (linex, liney') /\
    (forall i j a z,
       np.item1 anchors i = Some a ->
       np.item1 (np.arange 57 72) j = Some z ->
       exists y,
         np.item2 ys i j = Some y /\
         np.item2 ys' i j
         = Some (if isclose y fzero && negb (z =? a)%Z then nan else y)) /\
    (forall i k, i < 4 -> k < 1000 ->
       exists y,
         np.item2 liney i k = Some y /\
         np.item2 liney' i k = Some (if isclose y fzero then nan else y)).
Proof.
  intros Hb Hts H0.
  destruct (tetrads_drop0_inv _ _ _ _ _ _ Hb Hts H0)
    as (xs & ys & linex & liney & Hm0 & Hl0 & Hsy & Hwy & Hsl & Hwl & H1).
  destruct H1 as (ax1 & H1 & Hm1 & Hl1).
  eexists ax1, xs, ys, _, linex, liney, _.
  do 5 (split; [done|]). split.
  - intros i j a z Ha Hz.
    assert (i < 4) as Hi by (by apply lookup_lt_Some in Ha).
    assert (j < 15) as Hj.
    { destruct (arange_Arr1 57 72) as (zs & Ez & Hzs). rewrite Ez in Hz.
      apply lookup_lt_Some in Hz. by rewrite Hzs in Hz. }
    destruct (item2_defined ys 4 15 i j) as [y Hy]; [done..|].
    exists y. split; [done|].
    erewrite item2_azip; [|done|].
    2:{ erewrite item2_azip; [done| |by apply keep_mask_item].
        by rewrite item2_amap, Hy. }
    done.
  - intros i k Hi Hk.
    destruct (item2_defined liney 4 1000 i k) as [y Hy]; [done..|].
    exists y. split; [done|].
    erewrite item2_azip; [done|done|].
    by rewrite item2_amap, Hy.
Qed.

(** C4 (amended).  For an index other than "radii" and "elements" the
    markers sit at the raw atomic numbers 57 to 71 and the line at its
    fractional sample positions; the tick labels set afterwards are
    [REE(dropPm=False)], the fifteen symbols La to Lu with Pm among them. *)
Theorem tetrads_atomic_number_axis ts params index logy drop0 kw ax :
  index ∉ ["radii"; "elements"] ->
  plot_tetrads_profiles ts params index logy drop0 kw = Ok ax ->
  (exists ys,
     marker_series ax = Some (np.astype_float (np.arange 57 72), ys)) /\
  (exists liney,
     line_series ax
     = Some (np.linspace (of_int 57) (of_int 71) 1000, liney)) /\
  np.arange 57 72
  = np.Arr1 [57; 58; 59; 60; 61; 62; 63; 64; 65; 66; 67; 68; 69; 70; 71]%Z /\
  xticklabels ax
  = Some ["La"; "Ce"; "Pr"; "Nd"; "Pm"; "Sm"; "Eu"; "Gd"; "Tb"; "Dy"; "Ho";
          "Er"; "Tm"; "Yb"; "Lu"].
Proof.
  intros Hi H.
  apply tetrads_inv in H
    as (fz & y & fl & l & xs & linex & ys & liney & H).
  destruct H as (_ & _ & _ & _ & _ & _ & _ & ->).
  rewrite bool_decide_false by done. simpl.
  split; [by eexists|]. split; [by eexists|]. done.
Qed.

(** C5.  A returning call draws exactly two series on its axes, the markers
    (no line, [linewidth=0]) and the line (no marker).  The marker values
    come from the tetrad function at the fifteen integers 57 to 71, the
    line values from the tetrad function at the 1000 samples
    [57 + k * 14/999], [k = 0 .. 999], which run from 57 to 71.  (For the
    index "z" the axes themselves are made by a spider call on fifteen NaN,
    which shows nothing; it is the [origin] of the axes.) *)
Theorem tetrads_two_series ts params index logy drop0 kw ax :
  plot_tetrads_profiles ts params index logy drop0 kw = Ok ax ->
  let z := np.arange 57 72 in
  let linez := np.linspace (of_int 57) (of_int 71) 1000 in
  exists xs ys linex liney fz y flinez l,
    artists ax = [Spider ys xs logy (Some 0%Z) false None kw;
                  Spider liney linex logy None false (Some "") kw] /\
    z = np.Arr1 [57; 58; 59; 60; 61; 62; 63; 64; 65; 66; 67; 68; 69; 70; 71]%Z
    /\
    get_tetrads_function None (np.astype_float z) false = Ok fz /\
    np.matmul (np.atleast_2d ts) fz = Ok y /\
    get_tetrads_function None linez false = Ok flinez /\
    np.matmul (np.atleast_2d ts) flinez = Ok l /\
    (if drop0 then drop_zeros z (np.squeeze y) (np.squeeze l)
     else Ok (np.squeeze y, np.squeeze l)) = Ok (ys, liney) /\
    np.shape linez = [1000] /\
    (forall k, k < 1000 ->
       exists q, np.item1 linez k = Some (Fin q) /\
         (q == 57 + inject_Z (Z.of_nat k) * (14 / 999))%Q) /\
    (exists q0 q999, np.item1 linez 0 = Some (Fin q0) /\
       np.item1 linez 999 = Some (Fin q999) /\ (q0 == 57)%Q /\ (q999 == 71)%Q).
Proof.
  intros H z linez.
  apply tetrads_inv in H
    as (fz & y & fl & l & xs & linex & ys & liney & H).
  destruct H as (Hfz & Hy & Hfl & Hl & Hxs & Hlx & Hd & ->).
  eexists _, ys, _, liney, fz, y, fl, l.
  do 7 (split; [done|]).
  assert (forall k, k < 1000 ->
    exists q, np.item1 linez k = Some (Fin q) /\
      (q == 57 + inject_Z (Z.of_nat k) * (14 / 999))%Q) as Hk.
  { intros k Hk.
    destruct (linspace_item (inject_Z 57) (inject_Z 71) 999 k)
      as (q & Hq & Eq); [lia..|].
    exists q. split; [done|]. rewrite Eq.
    apply Qplus_comp; [done|]. apply Qmult_comp; done. }
  split.
  { destruct (linspace_Arr1 (of_int 57) (of_int 71) 1000) as (v & Ev & Hv).
    subst linez. rewrite Ev. simpl. by rewrite Hv. }
  split; [done|].
  destruct (Hk 0) as (q0 & H0 & E0); [lia|].
  destruct (Hk 999) as (q9 & H9 & E9); [lia|].
  exists q0, q9. do 2 (split; [done|]). split.
  - rewrite E0. done.
  - rewrite E9. done.
Qed.

(** C6.  The index selects the x-coordinates.  For "radii" and "elements"
    they are the radii computed from the atomic numbers: of 57 to 71 for
    the markers, of the samples for the line.  Any other index does what
    "z" does: the raw atomic numbers for the markers and the fractional
    sample positions for the line. *)
Theorem tetrads_coordinate_transform ts params index logy drop0 kw ax :
  plot_tetrads_profiles ts params index logy drop0 kw = Ok ax ->
  let z := np.astype_float (np.arange 57 72) in
  let linez := np.linspace (of_int 57) (of_int 71) 1000 in
  if bool_decide (index ∈ ["radii"; "elements"])
  then
    exists xs linex ys liney,
      REE_z_to_radii z = Ok xs /\ REE_z_to_radii linez = Ok linex /\
      marker_series ax = Some (xs, ys) /\
      line_series ax = Some (linex, liney)
  else
    plot_tetrads_profiles ts params index logy drop0 kw
    = plot_tetrads_profiles ts params "z" logy drop0 kw /\
    exists ys liney,
      marker_series ax = Some (z, ys) /\ line_series ax = Some (linez, liney).
Proof.
  intros H z linez.
  case_bool_decide as Hi.
  - apply tetrads_inv in H
      as (fz & y & fl & l & xs & linex & ys & liney & H).
    destruct H as (_ & _ & _ & _ & Hxs & Hlx & _ & ->).
    rewrite bool_decide_true by done.
    by exists xs, linex, ys, liney.
  - split.
    + unfold plot_tetrads_profiles.
      rewrite (bool_decide_false (index ∈ _)) by done.
      reflexivity.
    + apply tetrads_inv in H
        as (fz & y & fl & l & xs & linex & ys & liney & H).
      destruct H as (_ & _ & _ & _ & _ & _ & _ & ->).
      rewrite bool_decide_false by done.
      by exists ys, liney.
Qed.

(** C7 (amended).  Zero taus against a finite basis give zeros, for every
    positions vector: the product of the 1 x 4 tau vector with the
    4 x len(positions) basis matrix is all zero, and the filter that
    [drop0] applies to the line turns all of it into NaN.  The markers are
    not all suppressed: in a call with four zero rows of taus and
    [drop0=True] every line value is NaN, and every marker is NaN except
    the zero that row [i] keeps at the anchor of tetrad [i]. *)
Theorem tetrads_zero_taus taus positions ts params index logy kw ax0 :
  basis_ok -> basis_finite ->
  length taus = 4 -> np.all is_zero (np.Arr1 taus) = true ->
  np.all finite (np.Arr1 positions) = true ->
  np.shape ts = [4; 4] -> np.all is_zero ts = true ->
  plot_tetrads_profiles ts params index logy false kw = Ok ax0 ->
  (exists basis y fltr out,
     get_tetrads_function None (np.Arr1 positions) false = Ok basis /\
     np.matmul (np.atleast_2d (np.Arr1 taus)) basis = Ok y /\
     np.shape y = [1; length positions] /\
     np.all is_zero y = true /\
     np.ufunc2 isclose (np.squeeze y) (np.Arr0 fzero) = Ok fltr /\
     np.setitem_mask (np.squeeze y) fltr nan = Ok out /\
     np.all is_nan out = true) /\
  (exists ax1,
     plot_tetrads_profiles ts params index logy true kw = Ok ax1 /\
     (forall i k, i < 4 -> k < 1000 ->
        is_zero <$> line_y ax0 i k = Some true /\
        line_y ax1 i k = Some nan) /\
     (forall i j a z,
        np.item1 anchors i = Some a ->
        np.item1 (np.arange 57 72) j = Some z ->
        exists y,
          marker_y ax0 i j = Some y /\ is_zero y = true /\
          marker_y ax1 i j = Some (if (z =? a)%Z then y else nan))).
Proof.
  intros Hb Hf Hlen Htaus Hpos Hts Hzero H0. split.
  - destruct (Hb positions) as (rows & Hrows & Hr).
    pose proof (Hf _ _ Hpos Hrows) as Hfin.
    destruct (np.matmul (np.atleast_2d (np.Arr1 taus))
                (np.Arr2 (length positions) rows)) as [y|e] eqn:Ey.
    2:{ unfold np.matmul in Ey. simpl in Ey.
        rewrite decide_True in Ey by congruence. done. }
    assert (np.all is_zero y = true) as Hy.
    { eapply matmul_zero; [|exact Hfin|exact Ey].
      apply all_rows. constructor; [|done]. by apply all_Forall in Htaus. }
    pose proof Ey as (_ & ->)%matmul_2d.
    destruct (suppress_zeros
                (np.squeeze (np.Arr2 (length positions)
                   [(fun j => np.dot taus (np.column j rows))
                      <$> seq 0 (length positions)])))
      as (fltr & out & Hfl & Hout & Hnan).
    { apply wf_squeeze_row. }
    { apply all_Forall. rewrite ravel_squeeze_row.
      apply all_Forall in Hy. simpl in Hy. by rewrite app_nil_r in Hy. }
    by eexists _, _, fltr, out.
  - destruct (tetrads_drop0_inv _ _ _ _ _ _ Hb Hts H0)
      as (xs & ys & linex & liney & Hm0 & Hl0 & Hsy & Hwy & Hsl & Hwl & H1).
    destruct H1 as (ax1 & H1 & Hm1 & Hl1).
    assert (np.all is_zero ys = true /\ np.all is_zero liney = true)
      as [Hzy Hzl].
    { apply tetrads_inv in H0
        as (fz & y & fl & l & xs' & linex' & ys' & liney' & H0).
      destruct H0 as (Hfz & Hy & Hfl & Hl & _ & _ & Hd & ->).
      injection Hd as <- <-.
      injection Hm0 as _ <-. injection Hl0 as _ <-.
      destruct (arange_Arr1 57 72) as (zs & Ez & Hzs).
      destruct (linspace_Arr1 (of_int 57) (of_int 71) 1000) as (ls & El & _).
      pose proof (astype_float_finite (np.arange 57 72)) as Fz.
      pose proof (linspace_finite (inject_Z 57) (inject_Z 71) 1000) as Fl.
      change (Fin (inject_Z ?n)) with (of_int n) in Fl.
      assert (np.astype_float (np.arange 57 72) = np.Arr1 (of_int <$> zs))
        as Ezf by (by rewrite Ez).
      rewrite Ezf in Hfz, Fz. rewrite El in Hfl, Fl.
      pose proof (Hf _ _ Fz Hfz) as Hfinz.
      pose proof (Hf _ _ Fl Hfl) as Hfinl.
      destruct (Hb (of_int <$> zs)) as (rz & Hrz & _).
      destruct (Hb ls) as (rl & Hrl & _).
      rewrite Hrz in Hfz. injection Hfz as <-.
      rewrite Hrl in Hfl. injection Hfl as <-.
      destruct ts as [x|v|k tr]; simpl in Hts; [done..|].
      simpl in Hy, Hl.
      pose proof (matmul_zero _ _ _ _ _ Hzero Hfinz Hy) as Zy.
      pose proof (matmul_zero _ _ _ _ _ Hzero Hfinl Hl) as Zl.
      apply matmul_2d_shape in Hy as [Sy _], Hl as [Sl _].
      injection Hts as Hn _. rewrite Hn in Sy, Sl.
      rewrite length_fmap, Hzs in Sy.
      destruct (linspace_Arr1 (of_int 57) (of_int 71) 1000) as (ls' & El' & Hls).
      rewrite El in El'. injection El' as <-. rewrite Hls in Sl.
      rewrite (squeeze_2d y 4 15) by (done || lia).
      rewrite (squeeze_2d l 4 1000) by (done || lia). done. }
    exists ax1. split; [done|]. split.
    + intros i k Hi Hk. unfold line_y. rewrite Hl0, Hl1. simpl.
      destruct (item2_defined liney 4 1000 i k) as [y Hy]; [done..|].
      pose proof (all_item2 _ _ _ _ _ Hzl Hy) as Zy.
      rewrite Hy. split; [by rewrite <- Zy|].
      erewrite item2_azip; [|done|by rewrite item2_amap, Hy].
      by rewrite is_zero_isclose.
    + intros i j a z Ha Hz.
      assert (i < 4) as Hi by (by apply lookup_lt_Some in Ha).
      assert (j < 15) as Hj.
      { destruct (arange_Arr1 57 72) as (zs & Ez & Hzs). rewrite Ez in Hz.
        apply lookup_lt_Some in Hz. by rewrite Hzs in Hz. }
      destruct (item2_defined ys 4 15 i j) as [y Hy]; [done..|].
      pose proof (all_item2 _ _ _ _ _ Hzy Hy) as Zy.
      exists y. unfold marker_y. rewrite Hm0, Hm1. simpl.
      split; [done|]. split; [done|].
      erewrite item2_azip; [|done|].
      2:{ erewrite item2_azip; [done| |by apply keep_mask_item].
          by rewrite item2_amap, Hy. }
      rewrite is_zero_isclose by done. simpl.
      by destruct (z =? a)%Z.
Qed.

(** C2 (the code departs from the claim).  A tau vector passed as a 1-D
    array never gets through the [drop0] block: the markers have rank below
    two after [squeeze], and the in-place product with the 4 x 15 anchor
    mask cannot be stored in them.  Whatever the tetrad function and the
    radius transform are, the call with [drop0=True] raises instead of
    returning the axes. *)
Theorem tetrads_single_vector_raises (taus : list f64) params index logy kw :
  returns (plot_tetrads_profiles (np.Arr1 taus) params index logy true kw)
  = false.
Proof.
  unfold plot_tetrads_profiles. simpl np.atleast_2d.
  destruct (get_tetrads_function None (np.astype_float _) false)
    as [fz|]; [simpl|done].
  destruct (np.matmul _ fz) as [ys|] eqn:Eys; [simpl|done].
  destruct (get_tetrads_function None (np.linspace _ _ _) false)
    as [flinez|]; [simpl|done].
  destruct (np.matmul _ flinez) as [liney|]; [simpl|done].
  destruct (REE_z_to_radii (np.astype_float _)) as [xs|]; [simpl|done].
  destruct (REE_z_to_radii (np.linspace _ _ _)) as [linex|]; [simpl|done].
  apply single_row_squeeze in Eys.
  case_bool_decide; simpl; by rewrite drop_zeros_low_rank.
Qed.

(** C3.  The [params] argument is never read: the tetrad function is built
    with [params=None], so two calls that differ only in [params] compute
    the same thing. *)
Theorem tetrads_params_ignored ts params1 params2 index logy drop0 kw :
  plot_tetrads_profiles ts params1 index logy drop0 kw
  = plot_tetrads_profiles ts params2 index logy drop0 kw.
Proof. reflexivity. Qed.

End tetrads_facts.

(** ** The lambda plots *)

Section labels.

Lemma append_cons x (a b : string) : String x a +:+ b = String x (a +:+ b).
Proof. done. Qed.

Lemma append_assoc (a b c : string) : (a +:+ b) +:+ c = a +:+ (b +:+ c).
Proof.
  induction a as [|x a IH]; [done|]. by rewrite !append_cons, IH.
Qed.

Lemma all_digits_app a b :
  all_digits (a +:+ b) = all_digits a && all_digits b.
Proof.
  induction a as [|x a IH]; [done|].
  rewrite append_cons. simpl. by rewrite IH, andb_assoc.
Qed.

Lemma pretty_N_char_digit x : is_digit (pretty_N_char x) = true.
Proof. unfold pretty_N_char. by repeat case_match. Qed.

Lemma pretty_N_go_digits x s :
  exists d, pretty_N_go x s = d +:+ s /\ all_digits d = true.
Proof.
  revert s. induction (N.lt_wf_0 x) as [x _ IH]. intros s.
  assert (x = 0 \/ 0 < x)%N as [->|Hx] by lia.
  - exists "". by rewrite pretty_N_go_0.
  - rewrite pretty_N_go_step by done.
    destruct (IH (x `div` 10)%N) with (s := String (pretty_N_char (x `mod` 10)) s)
      as (d & -> & Hd); [by apply N.div_lt|].
    exists (d +:+ String (pretty_N_char (x `mod` 10)) "").
    rewrite append_assoc. split; [done|].
    rewrite all_digits_app, Hd. simpl. by rewrite pretty_N_char_digit.
Qed.

Lemma pretty_nat_digits (n : nat) : all_digits (pretty n) = true.
Proof.
  unfold pretty, pretty_nat, pretty, pretty_N. case_decide; [done|].
  destruct (pretty_N_go_digits (N.of_nat n) "") as (d & -> & Hd).
  by rewrite all_digits_app, Hd.
Qed.

(** A run of digits ends where the first other character stands. *)
Lemma digits_prefix_inj d1 d2 c1 c2 t1 t2 :
  all_digits d1 = true -> all_digits d2 = true ->
  is_digit c1 = false -> is_digit c2 = false ->
  d1 +:+ String c1 t1 = d2 +:+ String c2 t2 -> d1 = d2.
Proof.
  revert d2. induction d1 as [|x d1 IH]; intros [|y d2];
    rewrite ?append_cons; simpl.
  - done.
  - intros _ [Hy _]%andb_prop ? ? [= <- _]. congruence.
  - intros [Hx _]%andb_prop _ ? ? [= -> _]. congruence.
  - intros [_ H1]%andb_prop [_ H2]%andb_prop ? ? [= -> H].
    f_equal. by eapply IH.
Qed.

End labels.

Section lambdas_facts.
Context `{C : Collaborators}.

(** The label names the degree: equal labels, equal degrees. *)
Lemma component_label_inj p q :
  component_label p = component_label q -> length p = length q.
Proof.
  unfold component_label. simpl. intros [= H].
  apply (inj (pretty (A:=nat))).
  eapply digits_prefix_inj; [apply pretty_nat_digits..| | |exact H]; done.
Qed.

(** One term alone: the sum has that term and nothing else. *)
Lemma reconstruct_singleton w p x :
  feq (reconstruct [w] [p] x) (fmul w (poly p x)).
Proof.
  unfold reconstruct. simpl.
  destruct (fmul w (poly p x)) as [q|]; simpl; [|done]. ring.
Qed.

Lemma get_lambda_poly_func_singleton w p :
  get_lambda_poly_func [w] [p] = Ok (np.amap (reconstruct [w] [p])).
Proof. done. Qed.

Lemma components_mapM xs kw (l : list (f64 * list f64)) :
  mapM (fun '(w, p) =>
          l_func ← get_lambda_poly_func [w] [p];
          mret (Plot xs (l_func xs) (component_label p) None (Some "--") kw)) l
  = Ok ((fun '(w, p) =>
           Plot xs (np.amap (reconstruct [w] [p]) xs) (component_label p)
             None (Some "--") kw) <$> l).
Proof.
  induction l as [|[w p] l IH]; [done|].
  change (mapM ?f (?x :: ?l)) with (y ← f x; k ← mapM f l; mret (y :: k)).
  rewrite IH. done.
Qed.

Lemma radii_samples_inv xs :
  radii_samples = Ok xs <->
  exists hi lo,
    np.max (np.Arr1 (get_ionic_radii (REE true) 3 8)) = Ok hi /\
    np.min (np.Arr1 (get_ionic_radii (REE true) 3 8)) = Ok lo /\
    xs = np.linspace hi lo 100.
Proof.
  unfold radii_samples. split.
  - intros H. apply bind_Ok in H as (hi & Hhi & H).
    apply bind_Ok in H as (lo & Hlo & [= <-]). by exists hi, lo.
  - intros (hi & lo & -> & -> & ->). done.
Qed.

Lemma lambdas_components_inv lambdas ax params degree kw a :
  plot_lambdas_components lambdas ax params degree kw = Ok a <->
  exists f xs,
    get_lambda_poly_func lambdas (_get_params params degree) = Ok f /\
    radii_samples = Ok xs /\
    a = {| origin := REE_v_radii_on ax; xticklabels := None;
           artists :=
             Plot xs (f xs) "Regression" (Some "k") None kw
             :: ((fun '(w, p) =>
                    Plot xs (np.amap (reconstruct [w] [p]) xs)
                      (component_label p) None (Some "--") kw)
                   <$> zip lambdas (_get_params params degree)) |}.
Proof.
  unfold plot_lambdas_components. split.
  - intros H. apply bind_Ok in H as (f & Hf & H).
    apply bind_Ok in H as (xs & Hxs & H). cbv beta in H.
    rewrite components_mapM in H. injection H as <-.
    by exists f, xs.
  - intros (f & xs & Hf & Hxs & ->).
    rewrite Hf, bind_Ok_l. cbv beta. rewrite Hxs, bind_Ok_l. cbv beta.
    by rewrite components_mapM.
Qed.

Lemma lambdas_profiles_inv lambdas ax params degree kw a :
  plot_lambdas_profiles lambdas ax params degree kw = Ok a <->
  exists f xs,
    get_lambda_poly_func lambdas (_get_params params degree) = Ok f /\
    radii_samples = Ok xs /\
    a = {| origin := REE_v_radii_on ax; xticklabels := None;
           artists := [Plot xs (f xs) "Regression" (Some "k") None kw] |}.
Proof.
  unfold plot_lambdas_profiles. split.
  - intros H. apply bind_Ok in H as (f & Hf & H).
    apply bind_Ok in H as (xs & Hxs & [= <-]). by exists f, xs.
  - by intros (f & xs & -> & -> & ->).
Qed.

(** C8.  Built from one weight [w] and one parameter tuple [p], the
    reconstruction is [x -> w * poly_p(x)], on every x.  A returning
    [plot_lambdas_components] draws, after the full reconstruction, one
    such single-term curve per pair of [zip(lambdas, params)], dashed,
    over the same x-values, under a label that names the degree [len(p)]. *)
Theorem lambdas_single_term lambdas ax params degree kw a :
  plot_lambdas_components lambdas ax params degree kw = Ok a ->
  (forall w p,
     exists g, get_lambda_poly_func [w] [p] = Ok g /\
       forall xs, g xs = np.amap (reconstruct [w] [p]) xs) /\
  (forall w p x, feq (reconstruct [w] [p] x) (fmul w (poly p x))) /\
  (exists xs regression,
     artists a
     = regression
       :: ((fun '(w, p) =>
              Plot xs (np.amap (reconstruct [w] [p]) xs) (component_label p)
                None (Some "--") kw)
             <$> zip lambdas (_get_params params degree))) /\
  (forall p q, component_label p = component_label q <-> length p = length q).
Proof.
  intros (f & xs & Hf & Hxs & ->)%lambdas_components_inv.
  split; [intros w p; by eexists|].
  split; [apply reconstruct_singleton|].
  split; [by eexists _, _|].
  intros p q. split; [apply component_label_inj|].
  unfold component_label. by intros ->.
Qed.

End lambdas_facts.

Section radii_facts.
Context `{C : Collaborators}.

(** C9.  The radii used as x-coordinates are those of charge 3 and
    coordination 8.  The two lambda plots draw every curve over the 100
    samples from the largest to the smallest of
    [get_ionic_radii(REE(), charge=3, coordination=8)]; the tetrad plot,
    for the index "radii" or "elements", puts the markers and the line at
    the radii computed for charge 3 and coordination 8 from the atomic
    numbers 57 to 71 and from the line samples. *)
Theorem radii_charge3_coordination8 :
  (forall lambdas ax params degree kw a,
     plot_lambdas_components lambdas ax params degree kw = Ok a \/
     plot_lambdas_profiles lambdas ax params degree kw = Ok a ->
     exists hi lo,
       np.max (np.Arr1 (get_ionic_radii (REE true) 3 8)) = Ok hi /\
       np.min (np.Arr1 (get_ionic_radii (REE true) 3 8)) = Ok lo /\
       Forall (fun art => exists y label color ls,
                 art = Plot (np.linspace hi lo 100) y label color ls kw)
         (artists a)) /\
  (forall ts params index logy drop0 kw ax,
     index ∈ ["radii"; "elements"] ->
     plot_tetrads_profiles ts params index logy drop0 kw = Ok ax ->
     exists xs linex ys liney,
       z_to_radii 3 8 (np.astype_float (np.arange 57 72)) = Ok xs /\
       z_to_radii 3 8 (np.linspace (of_int 57) (of_int 71) 1000) = Ok linex /\
       marker_series ax = Some (xs, ys) /\
       line_series ax = Some (linex, liney)).
Proof.
  split.
  - intros lambdas ax params degree kw a [H|H].
    + apply lambdas_components_inv in H as (f & xs & _ & Hxs & ->).
      apply radii_samples_inv in Hxs as (hi & lo & Hhi & Hlo & ->).
      exists hi, lo. do 2 (split; [done|]). simpl.
      constructor; [by eexists _, _, _, _|].
      apply Forall_fmap, Forall_forall. intros [w p] _. simpl.
      by eexists _, _, _, _.
    + apply lambdas_profiles_inv in H as (f & xs & _ & Hxs & ->).
      apply radii_samples_inv in Hxs as (hi & lo & Hhi & Hlo & ->).
      exists hi, lo. do 2 (split; [done|]). simpl.
      constructor; [by eexists _, _, _, _|done].
  - intros ts params index logy drop0 kw ax Hi H.
    apply tetrads_inv in H
      as (fz & y & fl & l & xs & linex & ys & liney & H).
    destruct H as (_ & _ & _ & _ & Hxs & Hlx & _ & ->).
    rewrite bool_decide_true by done.
    by exists xs, linex, ys, liney.
Qed.

End radii_facts.

(** ** The store: what a call writes *)

Section store_facts.
Context `{C : Collaborators}.
Import mem.

Lemma mbind_Ok {A B} (c : M A) (k : A -> M B) h b h' :
  (c ≫= k) h = Ok (b, h') <->
  exists a h1, c h = Ok (a, h1) /\ k a h1 = Ok (b, h').
Proof.
  unfold mbind, M_bind. destruct (c h) as [[a h1]|e]; split.
  - intros H. by exists a, h1.
  - by intros (a' & h1' & [= <- <-] & H).
  - done.
  - by intros (a' & h1' & [=] & _).
Qed.

Lemma keeps_bind h0 {A B} (c : M A) (k : A -> M B) Q R :
  keeps h0 c Q -> (forall a, Q a -> keeps h0 (k a) R) ->
  keeps h0 (c ≫= k) R.
Proof.
  intros Hc Hk h b h' Hp (a & h1 & Ec & Ek)%mbind_Ok.
  destruct (Hc _ _ _ Hp Ec) as [Hp1 Ha].
  exact (Hk a Ha _ _ _ Hp1 Ek).
Qed.

Lemma keeps_ret h0 {A} (a : A) (Q : A -> Prop) : Q a -> keeps h0 (mret a) Q.
Proof. intros Ha h a' h' Hp [= <- <-]. done. Qed.

Lemma keeps_weaken h0 {A} (c : M A) (Q Q' : A -> Prop) :
  keeps h0 c Q -> (forall a, Q a -> Q' a) -> keeps h0 c Q'.
Proof. intros Hc HQ h a h' Hp E. destruct (Hc _ _ _ Hp E). auto. Qed.

Lemma keeps_lift h0 {A} (r : result A) : keeps h0 (lift r) (fun _ => True).
Proof. intros h a h' Hp. unfold lift. destruct r; [|done]. by intros [= <- <-]. Qed.

Lemma keeps_load_float h0 a : keeps h0 (load_float a) (fun _ => True).
Proof.
  intros h v h' Hp. unfold load_float.
  destruct (h !! base a) as [[d|d|d]|]; try done.
  exact (keeps_lift h0 _ h v h' Hp).
Qed.

Lemma keeps_load_bool h0 a : keeps h0 (load_bool a) (fun _ => True).
Proof.
  intros h v h' Hp. unfold load_bool.
  destruct (h !! base a) as [[d|d|d]|]; try done.
  exact (keeps_lift h0 _ h v h' Hp).
Qed.

Lemma keeps_load_int h0 a : keeps h0 (load_int a) (fun _ => True).
Proof.
  intros h v h' Hp. unfold load_int.
  destruct (h !! base a) as [[d|d|d]|]; try done.
  exact (keeps_lift h0 _ h v h' Hp).
Qed.

Lemma keeps_load_coords h0 a : keeps h0 (load_coords a) (fun _ => True).
Proof.
  intros h v h' Hp. unfold load_coords.
  destruct (h !! base a) as [[d|d|d]|]; try done;
    exact (keeps_lift h0 _ h v h' Hp).
Qed.

(** Allocation extends the store; the new object is fresh. *)
Lemma keeps_alloc h0 b s : keeps h0 (alloc b s) (fresh h0).
Proof.
  intros h a h' Hp [= <- <-]. split; [by apply prefix_app_r|].
  unfold fresh. simpl. by apply prefix_length.
Qed.

(** Writing into a fresh object leaves the buffers of [h0] alone. *)
Lemma keeps_write h0 a b : fresh h0 a -> keeps h0 (write a b) (fun _ => True).
Proof.
  intros Ha h u h' [k ->] [= <- <-]. split; [|done].
  rewrite insert_app_r_alt by done. by eexists.
Qed.

Lemma fresh_squeeze h0 a : fresh h0 a -> fresh h0 (squeeze a).
Proof. done. Qed.

Lemma keeps_matmul h0 a b : keeps h0 (matmul a b) (fresh h0).
Proof.
  unfold matmul.
  eapply keeps_bind; [apply keeps_load_float|intros x _].
  eapply keeps_bind; [apply keeps_load_float|intros y _].
  eapply keeps_bind; [apply keeps_lift|intros r _].
  apply keeps_alloc.
Qed.

Lemma keeps_isclose0 h0 a : keeps h0 (isclose0 a) (fresh h0).
Proof.
  unfold isclose0.
  eapply keeps_bind; [apply keeps_load_float|intros x _].
  eapply keeps_bind; [apply keeps_lift|intros r _].
  apply keeps_alloc.
Qed.

Lemma keeps_imul h0 out m : fresh h0 out -> keeps h0 (imul out m) (fun _ => True).
Proof.
  intros Ho. unfold imul.
  eapply keeps_bind; [apply keeps_load_bool|intros x _].
  eapply keeps_bind; [apply keeps_lift|intros r _].
  by apply keeps_write.
Qed.

Lemma keeps_setitem_mask h0 a mask v :
  fresh h0 a -> keeps h0 (setitem_mask a mask v) (fun _ => True).
Proof.
  intros Ha. unfold setitem_mask.
  eapply keeps_bind; [apply keeps_load_float|intros x _].
  eapply keeps_bind; [apply keeps_load_bool|intros m _].
  eapply keeps_bind; [apply keeps_lift|intros r _].
  by apply keeps_write.
Qed.

Lemma keeps_call h0 g x : keeps h0 (call g x) (fresh h0).
Proof.
  unfold call.
  eapply keeps_bind; [apply keeps_load_coords|intros v _].
  eapply keeps_bind; [apply keeps_lift|intros r _].
  apply keeps_alloc.
Qed.

(** The [drop0] block writes into the markers, the line and its own
    filter. *)
Lemma keeps_drop_zeros h0 z ys liney :
  fresh h0 ys -> fresh h0 liney ->
  keeps h0 (drop_zeros z ys liney) (fun _ => True).
Proof.
  intros Hy Hl. unfold drop_zeros.
  eapply keeps_bind; [apply keeps_isclose0|intros yfltr Hf].
  eapply keeps_bind; [apply keeps_load_int|intros zv _].
  eapply keeps_bind; [apply keeps_lift|intros keep _].
  eapply keeps_bind; [by apply keeps_imul|intros _ _].
  eapply keeps_bind; [by apply keeps_setitem_mask|intros _ _].
  eapply keeps_bind; [apply keeps_isclose0|intros linefltr _].
  by apply keeps_setitem_mask.
Qed.

Lemma keeps_radii_samples h0 : keeps h0 radii_samples (fun _ => True).
Proof.
  unfold radii_samples.
  eapply keeps_bind; [apply keeps_alloc|intros radii _].
  eapply keeps_bind; [apply keeps_load_float|intros r _].
  eapply keeps_bind; [apply keeps_lift|intros hi _].
  eapply keeps_bind; [apply keeps_lift|intros lo _].
  eapply keeps_weaken; [apply keeps_alloc|done].
Qed.

Lemma keeps_load_lambdas h0 a : keeps h0 (load_lambdas a) (fun _ => True).
Proof.
  unfold load_lambdas.
  eapply keeps_bind; [apply keeps_load_float|intros v _].
  destruct v; try apply keeps_lift. by apply keeps_ret.
Qed.

Lemma keeps_mapM h0 {A B} (f : A -> M B) (l : list A) :
  (forall x, keeps h0 (f x) (fun _ => True)) ->
  keeps h0 (mapM f l) (fun _ => True).
Proof.
  intros Hf. induction l as [|x l IH]; [by apply keeps_ret|].
  change (mapM f (x :: l)) with (y ← f x; k ← mapM f l; mret (y :: k)).
  eapply keeps_bind; [apply Hf|intros y _].
  eapply keeps_bind; [apply IH|intros k _].
  by apply keeps_ret.
Qed.

Lemma keeps_lambdas_components h0 lambdas ax params degree kw :
  keeps h0 (mem.plot_lambdas_components lambdas ax params degree kw)
    (fun _ => True).
Proof.
  unfold mem.plot_lambdas_components.
  eapply keeps_bind; [apply keeps_load_lambdas|intros l _].
  eapply keeps_bind; [apply keeps_lift|intros f _].
  eapply keeps_bind; [apply keeps_radii_samples|intros xs _].
  eapply keeps_bind; [apply keeps_load_float|intros x _].
  eapply keeps_bind; [apply keeps_alloc|intros y _].
  eapply keeps_bind; [apply keeps_load_float|intros yv _].
  eapply keeps_bind; [|intros comps _; by apply keeps_ret].
  apply keeps_mapM. intros [w p].
  eapply keeps_bind; [apply keeps_lift|intros lf _].
  eapply keeps_bind; [apply keeps_alloc|intros y' _].
  eapply keeps_bind; [apply keeps_load_float|intros yv' _].
  by apply keeps_ret.
Qed.

Lemma keeps_lambdas_profiles h0 lambdas ax params degree kw :
  keeps h0 (mem.plot_lambdas_profiles lambdas ax params degree kw)
    (fun _ => True).
Proof.
  unfold mem.plot_lambdas_profiles.
  eapply keeps_bind; [apply keeps_load_lambdas|intros l _].
  eapply keeps_bind; [apply keeps_lift|intros f _].
  eapply keeps_bind; [apply keeps_radii_samples|intros xs _].
  eapply keeps_bind; [apply keeps_load_float|intros x _].
  eapply keeps_bind; [apply keeps_alloc|intros y _].
  eapply keeps_bind; [apply keeps_load_float|intros yv _].
  by apply keeps_ret.
Qed.

Lemma keeps_tetrads_profiles h0 ts params index logy drop0 kw :
  keeps h0 (mem.plot_tetrads_profiles ts params index logy drop0 kw)
    (fun _ => True).
Proof.
  unfold mem.plot_tetrads_profiles.
  eapply keeps_bind; [apply keeps_alloc|intros z _].
  eapply keeps_bind; [apply keeps_alloc|intros linez _].
  eapply keeps_bind; [apply keeps_call|intros fz _].
  eapply keeps_bind; [apply keeps_matmul|intros ys Hys].
  eapply keeps_bind; [apply keeps_call|intros flinez _].
  eapply keeps_bind; [apply keeps_matmul|intros liney Hliney].
  eapply keeps_bind; [apply keeps_call|intros xs _].
  eapply keeps_bind; [apply keeps_call|intros linex _].
  eapply keeps_bind with (Q := fun _ => True).
  { case_bool_decide; [by apply keeps_ret|].
    eapply keeps_bind; [apply keeps_load_coords|intros zv _].
    by apply keeps_ret. }
  intros [[[ax ticks] xs'] linex'] _.
  eapply keeps_bind with (Q := fun _ => True).
  { destruct drop0; [|by apply keeps_ret].
    apply keeps_drop_zeros; by apply fresh_squeeze. }
  intros _ _.
  eapply keeps_bind; [apply keeps_load_float|intros y _].
  eapply keeps_bind; [apply keeps_load_coords|intros x _].
  eapply keeps_bind; [apply keeps_load_float|intros y' _].
  eapply keeps_bind; [apply keeps_load_coords|intros x' _].
  by apply keeps_ret.
Qed.

End store_facts.

(** ** The store: what a call computes *)

Section reshape_facts.
Import mem.

Lemma chunks_concat {A} m (rows : list (list A)) :
  Forall (fun r => length r = m) rows ->
  length (concat rows) = length rows * m /\
  chunk m (concat rows) <$> seq 0 (length rows) = rows.
Proof.
  induction 1 as [|r rows Hr _ [IHl IHc]]; [done|]. simpl. split.
  - rewrite length_app. lia.
  - rewrite <- fmap_S_seq, <- list_fmap_compose. f_equal.
    + unfold chunk. by rewrite Nat.mul_0_l, drop_0, take_app_length'.
    + etrans; [|exact IHc]. apply list_fmap_ext. intros i j _. simpl.
      unfold chunk. f_equal.
      replace (S j * m) with (length r + j * m) by lia.
      by rewrite drop_app_add.
Qed.

Lemma concat_chunks {A} m n (d : list A) :
  length d = n * m -> concat (chunk m d <$> seq 0 n) = d.
Proof.
  revert d. induction n as [|n IH]; intros d Hd.
  - by destruct d.
  - simpl. rewrite <- fmap_S_seq, <- list_fmap_compose.
    rewrite <- (take_drop m d) at 3. f_equal.
    etrans; [|apply (IH (drop m d)); rewrite length_drop; simpl in Hd; lia].
    f_equal. apply list_fmap_ext. intros i j _. simpl.
    unfold chunk. by rewrite drop_drop.
Qed.

Lemma chunk_length {A} m n (d : list A) i :
  length d = n * m -> i < n -> length (chunk m d i) = m.
Proof.
  intros Hd Hi. unfold chunk. rewrite length_take, length_drop. nia.
Qed.

(** Reading the flat data of a well-formed array with its shape gives the
    array back. *)
Lemma reshape_ravel {A} (a : np.ndarray A) :
  np.wf a -> reshape (np.shape a) (np.ravel a) = Ok a.
Proof.
  destruct a as [x|v|m rows]; simpl; [done| |].
  - intros _. by rewrite decide_True.
  - intros Hwf. destruct (chunks_concat m rows Hwf) as [Hl Hc].
    by rewrite decide_True, Hc.
Qed.

(** What is read from a buffer is well formed, of the shape asked for, and
    flattens to the buffer. *)
Lemma reshape_inv {A} s (d : list A) a :
  reshape s d = Ok a -> np.wf a /\ np.shape a = s /\ np.ravel a = d.
Proof.
  unfold reshape. destruct s as [|n [|m [|k s]]].
  - destruct d as [|x [|y d]]; try done. by intros [= <-].
  - case_decide as Hd; [|by destruct d]. destruct d; intros [= <-]; simpl;
      by rewrite <- ?Hd.
  - case_decide as Hd; [|by destruct d].
    assert (a = np.Arr2 m (chunk m d <$> seq 0 n) -> np.wf a /\
            np.shape a = [n; m] /\ np.ravel a = d) as Hgoal.
    { intros ->. simpl. split; [|split].
      - apply Forall_fmap, Forall_forall. intros i Hi%elem_of_seq. simpl.
        apply (chunk_length m n); [done|lia].
      - by rewrite length_fmap, length_seq.
      - by apply concat_chunks. }
    destruct d; intros [= <-]; by apply Hgoal.
  - by destruct d.
Qed.

Lemma reshape_atleast_2d {A} s (d : list A) a :
  reshape s d = Ok a ->
  reshape (ashape (atleast_2d {| base := 0; ashape := s |})) d
  = Ok (np.atleast_2d a).
Proof.
  intros H. destruct (reshape_inv _ _ _ H) as (Hwf & Hs & Hd).
  destruct a as [x|v|m rows]; simpl in *; subst s d; simpl.
  - done.
  - rewrite decide_True by lia. unfold chunk. simpl.
    by rewrite take_ge.
  - done.
Qed.

Lemma shape_squeeze {A} (a : np.ndarray A) :
  np.wf a ->
  np.shape (np.squeeze a) = filter (fun d => d <> 1) (np.shape a).
Proof.
  unfold np.squeeze. destruct a as [x|v|m rows]; simpl np.shape.
  - done.
  - intros _. rewrite filter_cons, filter_nil.
    by destruct v as [|x [|y v]].
  - intros Hwf. rewrite (filter_cons _ (length rows)), (filter_cons _ m),
      filter_nil.
    destruct rows as [|r [|r' rows]].
    + simpl. repeat case_decide; simpl; try done; lia.
    + apply Forall_cons_1 in Hwf as [Hr _]. subst m.
      by destruct r as [|x [|y r]].
    + destruct (chunks_concat m _ Hwf) as [Hl _].
      simpl length in *. repeat case_decide; simpl np.shape; try done; try lia.
      f_equal. rewrite Hl. lia.
Qed.

Lemma wf_squeeze {A} (a : np.ndarray A) : np.wf a -> np.wf (np.squeeze a).
Proof.
  unfold np.squeeze. destruct a as [x|v|m rows]; simpl.
  - done.
  - by destruct v as [|x [|y v]].
  - intros Hwf. destruct rows as [|r [|r' rows]]; try by case_decide.
    by destruct r as [|x [|y r]].
Qed.

Lemma ravel_squeeze {A} (a : np.ndarray A) :
  np.ravel (np.squeeze a) = np.ravel a.
Proof.
  unfold np.squeeze. destruct a as [x|v|m rows]; simpl.
  - done.
  - by destruct v as [|x [|y v]].
  - destruct rows as [|r [|r' rows]]; try by case_decide.
    simpl. rewrite app_nil_r. by destruct r as [|x [|y r]].
Qed.

Lemma reshape_squeeze {A} (a : np.ndarray A) :
  np.wf a ->
  reshape (filter (fun d => d <> 1) (np.shape a)) (np.ravel a)
  = Ok (np.squeeze a).
Proof.
  intros Hwf. rewrite <- shape_squeeze, <- ravel_squeeze by done.
  by apply reshape_ravel, wf_squeeze.
Qed.

End reshape_facts.

Section store_refinement.
Context `{C : Collaborators}.
#[local] Abbreviation values_drop_zeros := drop_zeros.
#[local] Abbreviation values_plot_tetrads_profiles := plot_tetrads_profiles.
#[local] Abbreviation values_radii_samples := radii_samples.
#[local] Abbreviation values_plot_lambdas_profiles := plot_lambdas_profiles.
#[local] Abbreviation values_plot_lambdas_components :=
  plot_lambdas_components.
Import mem.

Lemma lift_inv {A} (r : result A) h a h' :
  lift r h = Ok (a, h') <-> r = Ok a /\ h' = h.
Proof.
  unfold lift. destruct r as [x|e]; split; try done.
  - by intros [= <- <-].
  - by intros [[= <-] ->].
  - by intros [[=] _].
Qed.

Lemma alloc_inv b s h a h' :
  alloc b s h = Ok (a, h') <->
  a = {| base := length h; ashape := s |} /\ h' = h ++ [b].
Proof. unfold alloc. split; [by intros [= <- <-]|by intros [-> ->]]. Qed.

Lemma write_inv a b h u h' :
  write a b h = Ok (u, h') <-> h' = <[base a := b]> h.
Proof.
  unfold write. destruct u. split; [by intros [= <-]|by intros ->].
Qed.

Lemma load_float_inv a h v h' :
  load_float a h = Ok (v, h') <-> h' = h /\ holds h a v.
Proof.
  unfold load_float, holds_in. split.
  - destruct (h !! base a) as [[d|d|d]|]; try done.
    intros [Hr ->]%lift_inv. split; [done|]. by exists d.
  - intros [-> (d & -> & Hr)]. by apply lift_inv.
Qed.

Lemma load_bool_inv a h v h' :
  load_bool a h = Ok (v, h') <-> h' = h /\ holds_bool h a v.
Proof.
  unfold load_bool, holds_in. split.
  - destruct (h !! base a) as [[d|d|d]|]; try done.
    intros [Hr ->]%lift_inv. split; [done|]. by exists d.
  - intros [-> (d & -> & Hr)]. by apply lift_inv.
Qed.

Lemma load_int_inv a h v h' :
  load_int a h = Ok (v, h') <-> h' = h /\ holds_int h a v.
Proof.
  unfold load_int, holds_in. split.
  - destruct (h !! base a) as [[d|d|d]|]; try done.
    intros [Hr ->]%lift_inv. split; [done|]. by exists d.
  - intros [-> (d & -> & Hr)]. by apply lift_inv.
Qed.

Lemma load_coords_inv a h v h' :
  load_coords a h = Ok (v, h') -> h' = h /\ coords h a v.
Proof.
  unfold load_coords, coords, holds_in.
  destruct (h !! base a) as [[d|d|d]|]; try done.
  - intros [Hr ->]%lift_inv. split; [done|]. left. by exists d.
  - intros [Hr ->]%lift_inv. split; [done|]. right.
    destruct (reshape (ashape a) d) as [zv|] eqn:E; [|done].
    injection Hr as <-. exists zv. split; [by exists d|done].
Qed.

(** *** What an array object holds, as the store changes *)

Lemma holds_lookup {A} (box : list A -> buffer) h h' a v :
  h' !! base a = h !! base a -> holds_in box h a v -> holds_in box h' a v.
Proof. intros E (d & Hd & Hr). exists d. by rewrite E. Qed.

Lemma holds_app {A} (box : list A -> buffer) h l a v :
  holds_in box h a v -> holds_in box (h ++ l) a v.
Proof.
  intros (d & Hd & Hr). exists d. split; [|done].
  by apply lookup_app_l_Some.
Qed.

Lemma holds_insert_ne {A} (box : list A -> buffer) h i b a v :
  base a <> i -> holds_in box h a v -> holds_in box (<[i:=b]> h) a v.
Proof.
  intros Hne. apply holds_lookup. by rewrite list_lookup_insert_ne.
Qed.

Lemma holds_new {A} (box : list A -> buffer) h (v : np.ndarray A) :
  np.wf v ->
  holds_in box (h ++ [box (np.ravel v)])
    {| base := length h; ashape := np.shape v |} v.
Proof.
  intros Hwf. exists (np.ravel v). split; [|by apply reshape_ravel].
  simpl. by rewrite lookup_app_r, Nat.sub_diag.
Qed.

Lemma holds_insert_eq {A} (box : list A -> buffer) h a (v : np.ndarray A) :
  base a < length h -> np.wf v -> np.shape v = ashape a ->
  holds_in box (<[base a := box (np.ravel v)]> h) a v.
Proof.
  intros Hlt Hwf Hs. exists (np.ravel v).
  split; [by apply list_lookup_insert_eq|].
  rewrite <- Hs. by apply reshape_ravel.
Qed.

Lemma holds_lt {A} (box : list A -> buffer) h a v :
  holds_in box h a v -> base a < length h.
Proof. intros (d & Hd & _). by apply lookup_lt_Some in Hd. Qed.

Lemma holds_wf {A} (box : list A -> buffer) h a v :
  holds_in box h a v -> np.wf v /\ np.shape v = ashape a.
Proof. intros (d & _ & (? & ? & _)%reshape_inv). done. Qed.

Lemma holds_inj {A} (box : list A -> buffer) `{!Inj (=) (=) box} h a v v' :
  holds_in box h a v -> holds_in box h a v' -> v = v'.
Proof.
  intros (d & Hd & Hr) (d' & Hd' & Hr'). rewrite Hd in Hd'.
  injection Hd' as Hb. apply (inj box) in Hb. subst d'. congruence.
Qed.

#[local] Instance BFloat_inj : Inj (=) (=) BFloat.
Proof. by intros ? ? [= ->]. Qed.
#[local] Instance BBool_inj : Inj (=) (=) BBool.
Proof. by intros ? ? [= ->]. Qed.
#[local] Instance BInt_inj : Inj (=) (=) BInt.
Proof. by intros ? ? [= ->]. Qed.

Lemma coords_inj h a v v' : coords h a v -> coords h a v' -> v = v'.
Proof.
  intros [H|(zv & H & ->)] [H'|(zv' & H' & ->)].
  - by eapply (holds_inj BFloat).
  - destruct H as (d & Hd & _), H' as (d' & Hd' & _). congruence.
  - destruct H as (d & Hd & _), H' as (d' & Hd' & _). congruence.
  - by rewrite (holds_inj BInt _ _ _ _ H H').
Qed.

(** The views share the buffer and read it with another shape. *)
Lemma holds_atleast_2d h a v :
  holds h a v -> holds h (atleast_2d a) (np.atleast_2d v).
Proof.
  intros (d & Hd & Hr). exists d. split; [done|].
  by apply (reshape_atleast_2d (ashape a)).
Qed.

Lemma holds_squeeze h a v :
  holds h a v -> holds h (squeeze a) (np.squeeze v).
Proof.
  intros (d & Hd & Hr). exists d. split; [done|].
  destruct (reshape_inv _ _ _ Hr) as (Hwf & Hs & Hv). simpl.
  rewrite <- Hs, <- Hv. by apply reshape_squeeze.
Qed.

Lemma coords_lookup h h' a v :
  h' !! base a = h !! base a -> coords h a v -> coords h' a v.
Proof.
  intros E [H|(zv & H & ->)]; [left|right].
  - by eapply holds_lookup.
  - exists zv. split; [by eapply holds_lookup|done].
Qed.

Lemma coords_app h l a v : coords h a v -> coords (h ++ l) a v.
Proof.
  intros [H|(zv & H & ->)]; [left|right].
  - by apply holds_app.
  - exists zv. split; [by apply holds_app|done].
Qed.

Lemma coords_lt h a v : coords h a v -> base a < length h.
Proof. intros [H|(zv & H & _)]; by eapply holds_lt. Qed.

(** *** What the operations on array objects compute *)

Lemma matmul_inv a b h r h' :
  matmul a b h = Ok (r, h') ->
  exists x y v,
    holds h a x /\ holds h b y /\ np.matmul x y = Ok v /\
    r = {| base := length h; ashape := np.shape v |} /\
    h' = h ++ [BFloat (np.ravel v)].
Proof.
  unfold matmul. intros (x & h1 & [-> Hx]%load_float_inv & H)%mbind_Ok.
  apply mbind_Ok in H as (y & h2 & [-> Hy]%load_float_inv & H).
  apply mbind_Ok in H as (v & h3 & [Hv ->]%lift_inv & H).
  apply alloc_inv in H as [-> ->]. by exists x, y, v.
Qed.

Lemma call_inv g x h r h' :
  call g x h = Ok (r, h') ->
  exists xv v,
    coords h x xv /\ g xv = Ok v /\
    r = {| base := length h; ashape := np.shape v |} /\
    h' = h ++ [BFloat (np.ravel v)].
Proof.
  unfold call. intros (xv & h1 & [-> Hx]%load_coords_inv & H)%mbind_Ok.
  apply mbind_Ok in H as (v & h2 & [Hv ->]%lift_inv & H).
  apply alloc_inv in H as [-> ->]. by exists xv, v.
Qed.

Lemma isclose0_inv a h r h' :
  isclose0 a h = Ok (r, h') ->
  exists x v,
    holds h a x /\ np.ufunc2 isclose x (np.Arr0 fzero) = Ok v /\
    r = {| base := length h; ashape := np.shape v |} /\
    h' = h ++ [BBool (np.ravel v)].
Proof.
  unfold isclose0. intros (x & h1 & [-> Hx]%load_float_inv & H)%mbind_Ok.
  apply mbind_Ok in H as (v & h2 & [Hv ->]%lift_inv & H).
  apply alloc_inv in H as [-> ->]. by exists x, v.
Qed.

Lemma imul_inv out m h u h' :
  imul out m h = Ok (u, h') ->
  exists x r,
    holds_bool h out x /\ np.ufunc2_inplace andb x m = Ok r /\
    h' = <[base out := BBool (np.ravel r)]> h.
Proof.
  unfold imul. intros (x & h1 & [-> Hx]%load_bool_inv & H)%mbind_Ok.
  apply mbind_Ok in H as (r & h2 & [Hr ->]%lift_inv & H).
  apply write_inv in H. by exists x, r.
Qed.

Lemma setitem_mask_inv a mask v h u h' :
  setitem_mask a mask v h = Ok (u, h') ->
  exists x m r,
    holds h a x /\ holds_bool h mask m /\ np.setitem_mask x m v = Ok r /\
    h' = <[base a := BFloat (np.ravel r)]> h.
Proof.
  unfold setitem_mask. intros (x & h1 & [-> Hx]%load_float_inv & H)%mbind_Ok.
  apply mbind_Ok in H as (m & h2 & [-> Hm]%load_bool_inv & H).
  apply mbind_Ok in H as (r & h3 & [Hr ->]%lift_inv & H).
  apply write_inv in H. by exists x, m, r.
Qed.

(** *** Well-formed results *)

Lemma matmul_wf x y v : np.matmul x y = Ok v -> np.wf v.
Proof.
  unfold np.matmul. destruct x as [?|u|k ra], y as [?|w|m rb]; try done;
    case_decide; try done; intros [= <-]; try done.
  simpl. apply Forall_fmap, Forall_forall. intros r _. simpl.
  by rewrite length_fmap, length_seq.
Qed.

Lemma wf_azip {A B D} (f : A -> B -> D) a b :
  np.wf a -> np.wf b -> np.shape b = np.shape a -> np.wf (np.azip f a b).
Proof.
  destruct a as [?|?|m r], b as [?|?|m' s]; simpl; try done.
  intros Ha Hb [= Hl ->]. clear Hl. revert s Hb.
  induction Ha as [|x r Hx _ IH]; intros [|y s] Hb; simpl; try done.
  apply Forall_cons_1 in Hb as [Hy Hb]. constructor; [|by apply IH].
  rewrite length_zip_with. lia.
Qed.

Lemma bdim_fix d k : k <> 1 -> np.bdim d k = Some d -> d = k.
Proof. unfold np.bdim. intros Hk. repeat case_decide; congruence. Qed.

(** Only a 4 x 15 array takes the anchor mask in place. *)
Lemma inplace_keep_shape (x r : np.ndarray bool) :
  np.wf x -> np.ufunc2_inplace andb x keep_mask = Ok r ->
  np.shape x = [4; 15] /\ r = np.azip andb x keep_mask.
Proof.
  intros Hwf H. destruct keep_mask_shape as [Hk Hkwf].
  assert (np.shape x = [4; 15]) as Hs.
  { unfold np.ufunc2_inplace in H. rewrite Hk in H.
    destruct (np.broadcast_shapes _ _) as [s|] eqn:E; [|done].
    case_decide as Hsx; [|done]. subst s.
    pose proof (broadcast_shapes_length _ _ _ E) as Hl.
    destruct x as [?|?|m rows]; simpl in *; try lia.
    unfold np.broadcast_shapes in E. simpl in E.
    unfold reverse in E. simpl in E.
    destruct (np.bdim m 15) as [d1|] eqn:E1; [|done]. simpl in E.
    destruct (np.bdim (length rows) 4) as [d2|] eqn:E2; [|done]. simpl in E.
    injection E as -> ->.
    apply bdim_fix in E1, E2; [|lia..]. congruence. }
  split; [done|].
  rewrite ufunc2_inplace_same in H by (done || congruence). congruence.
Qed.

Lemma keep_mask_eval :
  (zcol ← np.newaxis_col (np.arange 57 72);
   d ← np.ufunc2 Z.sub zcol (np.T anchors);
   at_anchor ← np.ufunc2 isclose (np.astype_float d) (np.Arr0 fzero);
   keep ← np.ufunc2 Z.sub (np.Arr0 1%Z) (np.amap Z.b2z (np.T at_anchor));
   mret (np.astype_bool keep)) = Ok keep_mask.
Proof. reflexivity. Qed.

(** The [drop0] block over the store computes what [drop_zeros] computes,
    into the markers and the line, and touches no other old buffer. *)
Lemma drop_zeros_refines h z ys liney yv lv u h' :
  holds_int h z (np.arange 57 72) -> holds h ys yv -> holds h liney lv ->
  base ys <> base liney ->
  mem.drop_zeros z ys liney h = Ok (u, h') ->
  exists yv' lv',
    values_drop_zeros (np.arange 57 72) yv lv = Ok (yv', lv') /\
    holds h' ys yv' /\ holds h' liney lv' /\
    (forall i, i < length h -> i <> base ys -> i <> base liney ->
               h' !! i = h !! i).
Proof.
  intros Hz Hy Hl Hne H. unfold mem.drop_zeros in H.
  pose proof (holds_lt _ _ _ _ Hy) as Ly.
  pose proof (holds_lt _ _ _ _ Hl) as Ll.
  destruct (holds_wf _ _ _ _ Hy) as [Wy Sy].
  destruct (holds_wf _ _ _ _ Hl) as [Wl Sl].
  apply mbind_Ok in H as (yfltr & h1 & H1 & H).
  apply isclose0_inv in H1 as (x & v0 & Hx & Hv0 & -> & ->).
  rewrite (holds_inj BFloat _ _ _ _ Hx Hy) in Hv0. clear x Hx.
  apply mbind_Ok in H as (zv & h2 & [-> Hzv]%load_int_inv & H).
  rewrite (holds_inj BInt _ _ _ _ Hzv (holds_app _ _ _ _ _ Hz)) in H. clear zv Hzv.
  apply mbind_Ok in H as (keep & h3 & [Hk ->]%lift_inv & H).
  rewrite keep_mask_eval in Hk. injection Hk as <-.
  pose proof Hv0 as Hv0'. rewrite ufunc2_scalar in Hv0' by done.
  injection Hv0' as Ev0.
  assert (np.wf v0 /\ np.shape v0 = np.shape yv) as [W0 S0].
  { rewrite <- Ev0. split; [by apply wf_amap|apply shape_amap]. }
  apply mbind_Ok in H as (u1 & h4 & H1 & H).
  apply imul_inv in H1 as (x & r & Hx & Hr & ->).
  rewrite (holds_inj BBool _ _ _ _ Hx (holds_new BBool h v0 W0)) in Hr.
  clear x Hx. simpl base in *.
  destruct (inplace_keep_shape _ _ W0 Hr) as [S0' Er].
  destruct keep_mask_shape as [Sk Wk].
  assert (np.wf r /\ np.shape r = np.shape yv) as [Wr Sr].
  { rewrite Er. split; [apply wf_azip; congruence|].
    rewrite shape_azip; congruence. }
  apply mbind_Ok in H as (u2 & h5 & H1 & H).
  apply setitem_mask_inv in H1 as (x & m & yv' & Hx & Hm & Hyv' & ->).
  assert (x = yv) as ->.
  { eapply (holds_inj BFloat); [exact Hx|].
    apply holds_insert_ne; [simpl; lia|]. by apply holds_app. }
  assert (m = r) as ->.
  { eapply (holds_inj BBool); [exact Hm|].
    apply (holds_insert_eq BBool _ {| base := length h; ashape := np.shape v0 |});
      [rewrite length_app; simpl; lia|done|simpl; congruence]. }
  clear Hx Hm.
  pose proof Hyv' as Eyv'. rewrite setitem_mask_same in Eyv' by done.
  injection Eyv' as Eyv'.
  assert (np.wf yv' /\ np.shape yv' = np.shape yv) as [Wy' Sy'].
  { rewrite <- Eyv'. split; [by apply wf_azip|by apply shape_azip]. }
  apply mbind_Ok in H as (linefltr & h6 & H1 & H).
  apply isclose0_inv in H1 as (x & v1 & Hx & Hv1 & -> & ->).
  assert (x = lv) as ->.
  { eapply (holds_inj BFloat); [exact Hx|].
    apply holds_insert_ne; [done|]. apply holds_insert_ne; [simpl; lia|].
    by apply holds_app. }
  clear Hx.
  pose proof Hv1 as Ev1. rewrite ufunc2_scalar in Ev1 by done.
  injection Ev1 as Ev1.
  assert (np.wf v1 /\ np.shape v1 = np.shape lv) as [W1 S1].
  { rewrite <- Ev1. split; [by apply wf_amap|apply shape_amap]. }
  apply setitem_mask_inv in H as (x & m & lv' & Hx & Hm & Hlv' & ->).
  assert (x = lv) as ->.
  { eapply (holds_inj BFloat); [exact Hx|].
    apply holds_app. apply holds_insert_ne; [done|].
    apply holds_insert_ne; [simpl; lia|]. by apply holds_app. }
  assert (m = v1) as ->.
  { eapply (holds_inj BBool); [exact Hm|]. by apply holds_new. }
  clear Hx Hm.
  pose proof Hlv' as Elv'. rewrite setitem_mask_same in Elv' by done.
  injection Elv' as Elv'.
  assert (np.wf lv' /\ np.shape lv' = np.shape lv) as [Wl' Sl'].
  { rewrite <- Elv'. split; [by apply wf_azip|by apply shape_azip]. }
  exists yv', lv'. split; [|split; [|split]].
  - rewrite drop_zeros_unfold, Hv0. simpl. rewrite Hr. simpl.
    rewrite Hyv'. simpl. rewrite Hv1. simpl. by rewrite Hlv'.
  - apply holds_insert_ne; [done|]. apply holds_app.
    apply holds_insert_eq; [|done|congruence].
    rewrite length_insert, length_app. lia.
  - apply holds_insert_eq; [|done|congruence].
    rewrite length_app, !length_insert, length_app. lia.
  - intros i Hi Hiy Hil.
    rewrite list_lookup_insert_ne by done.
    rewrite lookup_app_l by (rewrite !length_insert, length_app; lia).
    rewrite list_lookup_insert_ne by done.
    rewrite list_lookup_insert_ne by (simpl; lia).
    by rewrite lookup_app_l.
Qed.

(** An array object keeps its value in every later store in which its
    buffer was not written. *)
Ltac solve_coords :=
  first [ eassumption | apply coords_app; solve_coords ].

Ltac solve_holds :=
  first [ eassumption
        | apply holds_new; solve [done | eauto]
        | apply holds_app; solve_holds ].

Lemma mret_inv {A} (a b : A) (h h' : store) :
  mret (M:=M) a h = Ok (b, h') <-> b = a /\ h' = h.
Proof. split; [by intros [= <- <-]|by intros [-> ->]]. Qed.

(** The call over the store draws what [plot_tetrads_profiles] draws for
    the value that the array [ts] holds: the store plays no other part. *)
Lemma tetrads_store_refines h ts v params index logy drop0 kw ax h' :
  helpers_wf -> holds h ts v ->
  mem.plot_tetrads_profiles ts params index logy drop0 kw h = Ok (ax, h') ->
  values_plot_tetrads_profiles v params index logy drop0 kw = Ok ax.
Proof.
  intros [Wf Wr] Hts H. unfold mem.plot_tetrads_profiles in H.
  assert (np.wf (np.arange 57 72)) as Wzs by done.
  assert (np.wf (np.linspace (of_int 57) (of_int 71) 1000)) as Wls.
  { by destruct (linspace_Arr1 (of_int 57) (of_int 71) 1000) as (l & -> & _). }
  assert (np.len (np.arange 57 72) = 15) as Lzs by done.
  remember (np.arange 57 72) as zs eqn:Ezs.
  remember (np.linspace (of_int 57) (of_int 71) 1000) as ls eqn:Els.
  apply mbind_Ok in H as (z & h1 & [-> ->]%alloc_inv & H).
  apply mbind_Ok in H as (linez & h2 & [-> ->]%alloc_inv & H).
  assert (holds_int (h ++ [BInt (np.ravel zs)])
            {| base := length h; ashape := np.shape zs |} zs) as Hzi
    by (by apply holds_new).
  assert (coords (h ++ [BInt (np.ravel zs)])
            {| base := length h; ashape := np.shape zs |}
            (np.astype_float zs)) as Hz
    by (right; by exists zs).
  (* the tetrads at the markers *)
  apply mbind_Ok in H as (fz & h3 & H1 & H).
  apply call_inv in H1 as (zx & fzv & Hzx & Hfz & -> & ->).
  assert (zx = np.astype_float zs) as ->
    by (eapply coords_inj; [exact Hzx|solve_coords]).
  clear Hzx.
  pose proof (Wf _ _ _ (wf_amap _ _ Wzs) Hfz) as Wfz.
  apply mbind_Ok in H as (ys & h4 & H1 & H).
  apply matmul_inv in H1 as (x & y & yv & Hx & Hy & Hyv & -> & ->).
  assert (x = np.atleast_2d v) as ->.
  { eapply (holds_inj BFloat); [exact Hx|].
    apply holds_atleast_2d. solve_holds. }
  assert (y = fzv) as ->.
  { eapply (holds_inj BFloat); [exact Hy|]. solve_holds. }
  clear Hx Hy. pose proof (matmul_wf _ _ _ Hyv) as Wyv.
  (* the tetrads along the line *)
  apply mbind_Ok in H as (flinez & h5 & H1 & H).
  apply call_inv in H1 as (lx & flv & Hlx & Hfl & -> & ->).
  assert (lx = ls) as ->.
  { eapply coords_inj; [exact Hlx|]. left. solve_holds. }
  clear Hlx. pose proof (Wf _ _ _ Wls Hfl) as Wfl.
  apply mbind_Ok in H as (liney & h6 & H1 & H).
  apply matmul_inv in H1 as (x & y & lv & Hx & Hy & Hlv & -> & ->).
  assert (x = np.atleast_2d v) as ->.
  { eapply (holds_inj BFloat); [exact Hx|].
    apply holds_atleast_2d. solve_holds. }
  assert (y = flv) as ->.
  { eapply (holds_inj BFloat); [exact Hy|]. solve_holds. }
  clear Hx Hy. pose proof (matmul_wf _ _ _ Hlv) as Wlv.
  (* the radii *)
  apply mbind_Ok in H as (xs & h7 & H1 & H).
  apply call_inv in H1 as (zx & xsv & Hzx & Hxs & -> & ->).
  assert (zx = np.astype_float zs) as ->
    by (eapply coords_inj; [exact Hzx|solve_coords]).
  clear Hzx. pose proof (Wr _ _ (wf_amap _ _ Wzs) Hxs) as Wxs.
  apply mbind_Ok in H as (linex & h8 & H1 & H).
  apply call_inv in H1 as (lx & lxv & Hlx & Hlxv & -> & ->).
  assert (lx = ls) as ->.
  { eapply coords_inj; [exact Hlx|]. left. solve_holds. }
  clear Hlx. pose proof (Wr _ _ Wls Hlxv) as Wlxv.
  match type of H with (_ ≫= _) ?h = _ => set (h8 := h) in * end.
  match type of H with
  | context [drop_zeros _ (squeeze ?a) (squeeze ?b)] =>
      set (ya := a) in *; set (la := b) in *
  end.
  assert (base ya = length h + 3 /\ base la = length h + 5) as [Bya Bla].
  { subst ya la. simpl. rewrite !length_app. simpl. lia. }
  assert (length h8 = length h + 8) as L8.
  { subst h8. rewrite !length_app. simpl. lia. }
  assert (holds h8 (squeeze ya) (np.squeeze yv)) as Hys.
  { apply holds_squeeze. subst h8 ya. solve_holds. }
  assert (holds h8 (squeeze la) (np.squeeze lv)) as Hly.
  { apply holds_squeeze. subst h8 la. solve_holds. }
  assert (coords h8 {| base := length h; ashape := np.shape zs |}
            (np.astype_float zs)) as Hz8.
  { subst h8. solve_coords. }
  assert (holds_int h8 {| base := length h; ashape := np.shape zs |} zs)
    as Hzi8.
  { subst h8. solve_holds. }
  assert (coords h8 {| base := length (h ++ [BInt (np.ravel zs)]);
                       ashape := np.shape ls |} ls) as Hl8.
  { left. subst h8. solve_holds. }
  (* the axes and the coordinates *)
  apply mbind_Ok in H as ([[[axo ticks] xa] lxa] & h9 & H1 & H).
  assert (h9 = h8 /\ exists xv lxv',
            coords h8 xa xv /\ coords h8 lxa lxv' /\
            base xa <> base ya /\ base xa <> base la /\
            base lxa <> base ya /\ base lxa <> base la /\
            Ok {| origin := axo; xticklabels := ticks;
                  artists := [Spider (np.squeeze yv) xv logy (Some 0%Z) false
                                None kw;
                              Spider (np.squeeze lv) lxv' logy None false
                                (Some "") kw] |}
            = values_plot_tetrads_profiles v params index logy false kw)
    as (-> & xv & lxv' & Hxa & Hlxa & B3 & B4 & B5 & B6 & Hpure).
  { assert (values_plot_tetrads_profiles v params index logy false kw
            = Ok {| origin :=
                      if bool_decide (index ∈ ["radii"; "elements"])
                      then REE_v_radii_new logy index kw
                      else spider_new (np.Arr1 (replicate 15 nan))
                             (np.astype_float zs) logy kw;
                    xticklabels :=
                      if bool_decide (index ∈ ["radii"; "elements"])
                      then None else Some (REE false);
                    artists :=
                      [Spider (np.squeeze yv)
                         (if bool_decide (index ∈ ["radii"; "elements"])
                          then xsv else np.astype_float zs)
                         logy (Some 0%Z) false None kw;
                       Spider (np.squeeze lv)
                         (if bool_decide (index ∈ ["radii"; "elements"])
                          then lxv else ls)
                         logy None false (Some "") kw] |}) as ->.
    { apply tetrads_inv. subst zs ls.
      exists fzv, yv, flv, lv, xsv, lxv. eexists _, _. by repeat split. }
    case_bool_decide.
    - apply mret_inv in H1 as [[= -> -> -> ->] ->]. split; [done|].
      exists xsv, lxv.
      split; [left; subst h8; solve_holds|].
      split; [left; subst h8; solve_holds|].
      rewrite Bya, Bla. simpl base. rewrite !length_app. simpl.
      repeat split; lia || done.
    - apply mbind_Ok in H1 as (zv & h9' & [-> Hzv]%load_coords_inv & H1).
      apply mret_inv in H1 as [[= -> -> -> ->] ->]. split; [done|].
      rewrite (coords_inj _ _ _ _ Hzv Hz8).
      exists (np.astype_float zs), ls.
      split; [done|]. split; [done|].
      rewrite Bya, Bla. simpl base. rewrite !length_app. simpl.
      repeat split; try lia.
      unfold len. simpl ashape. unfold np.len in Lzs. by rewrite Lzs. }
  (* the filter *)
  apply mbind_Ok in H as (u & h10 & Hdrop & H).
  assert (exists yv' lv',
            (if drop0 then values_drop_zeros zs (np.squeeze yv) (np.squeeze lv)
             else Ok (np.squeeze yv, np.squeeze lv)) = Ok (yv', lv') /\
            holds h10 (squeeze ya) yv' /\ holds h10 (squeeze la) lv' /\
            coords h10 xa xv /\ coords h10 lxa lxv')
    as (yv' & lv' & Hd & Hy' & Hl' & Hxa' & Hlxa').
  { destruct drop0.
    - assert (holds_int h8 {| base := length h; ashape := np.shape zs |}
                (np.arange 57 72)) as Hzi8' by (by rewrite <- Ezs).
      eapply drop_zeros_refines in Hdrop as (yv' & lv' & Hd & Hy' & Hl' & Hfr);
        [|exact Hzi8'|exact Hys|exact Hly
         |unfold squeeze; simpl base; rewrite !length_app; simpl; lia].
      rewrite <- Ezs in Hd.
      exists yv', lv'. do 3 (split; [done|]).
      split; (eapply coords_lookup; [apply Hfr; simpl|done]);
        try done; by eapply coords_lt.
    - apply mret_inv in Hdrop as [_ ->].
      by exists (np.squeeze yv), (np.squeeze lv). }
  apply mbind_Ok in H as (y1 & h11 & [-> Hy1]%load_float_inv & H).
  apply mbind_Ok in H as (x1 & h12 & [-> Hx1]%load_coords_inv & H).
  apply mbind_Ok in H as (y2 & h13 & [-> Hy2]%load_float_inv & H).
  apply mbind_Ok in H as (x2 & h14 & [-> Hx2]%load_coords_inv & H).
  apply mret_inv in H as [-> ->].
  rewrite (holds_inj BFloat _ _ _ _ Hy1 Hy').
  rewrite (holds_inj BFloat _ _ _ _ Hy2 Hl').
  rewrite (coords_inj _ _ _ _ Hx1 Hxa').
  rewrite (coords_inj _ _ _ _ Hx2 Hlxa').
  symmetry in Hpure. apply tetrads_inv in Hpure
    as (fz' & y' & fl' & l' & xs' & linex' & ys' & liney' & Hp).
  destruct Hp as (Hfz' & Hy0' & Hfl' & Hl0' & Hxs' & Hlx' & Hd' & Hax).
  injection Hd' as <- <-.
  injection Hax as -> -> Ey -> El ->.
  rewrite Ey, El, Ezs in Hd.
  apply tetrads_inv. exists fz', y', fl', l', xs', linex', yv', lv'.
  by do 7 (split; [done|]).
Qed.

(** *** The lambda plots *)

Lemma get_lambda_poly_func_inv lambdas params f :
  get_lambda_poly_func lambdas params = Ok f ->
  f = np.amap (reconstruct lambdas params).
Proof. unfold get_lambda_poly_func. case_decide; [|done]. by intros [= <-]. Qed.

Lemma load_lambdas_inv a h l h' :
  load_lambdas a h = Ok (l, h') -> h' = h /\ holds h a (np.Arr1 l).
Proof.
  unfold load_lambdas.
  intros (v & h1 & [-> Hv]%load_float_inv & H)%mbind_Ok.
  destruct v as [x|w|m rows]; try by apply lift_inv in H as [? _].
  by apply mret_inv in H as [-> ->].
Qed.

(** A new array that is read back at once. *)
Lemma new_load_inv (v : np.ndarray f64) (k : np.ndarray f64 -> M axes) h r h' :
  np.wf v ->
  (y ← new_float v; y ← load_float y; k y) h = Ok (r, h') ->
  k v (h ++ [BFloat (np.ravel v)]) = Ok (r, h').
Proof.
  intros Wv (y & h1 & [-> ->]%alloc_inv & H)%mbind_Ok.
  apply mbind_Ok in H as (y' & h2 & [-> Hy]%load_float_inv & H).
  by rewrite (holds_inj BFloat _ _ _ _ Hy (holds_new BFloat h v Wv)) in H.
Qed.

Lemma radii_samples_store h xs h' :
  mem.radii_samples h = Ok (xs, h') ->
  exists xv, values_radii_samples = Ok xv /\ holds h' xs xv /\ np.wf xv.
Proof.
  unfold mem.radii_samples, values_radii_samples.
  set (radii := np.Arr1 (get_ionic_radii (REE true) 3 8)).
  intros (ra & h1 & [-> ->]%alloc_inv & H)%mbind_Ok.
  apply mbind_Ok in H as (r & h2 & [-> Hr]%load_float_inv & H).
  rewrite (holds_inj BFloat _ _ _ _ Hr (holds_new BFloat h radii I)) in H.
  clear r Hr.
  apply mbind_Ok in H as (hi & h3 & [Hhi ->]%lift_inv & H).
  apply mbind_Ok in H as (lo & h4 & [Hlo ->]%lift_inv & H).
  apply alloc_inv in H as [-> ->].
  assert (np.wf (np.linspace hi lo 100)) as W.
  { destruct (linspace_Arr1 hi lo 100) as (l & -> & _). done. }
  exists (np.linspace hi lo 100).
  split; [by rewrite Hhi, Hlo|]. split; [by apply holds_new|done].
Qed.

Lemma lambdas_profiles_store_refines h lambdas l ax params degree kw a h' :
  holds h lambdas (np.Arr1 l) ->
  mem.plot_lambdas_profiles lambdas ax params degree kw h = Ok (a, h') ->
  values_plot_lambdas_profiles l ax params degree kw = Ok a.
Proof.
  intros Hl H. unfold mem.plot_lambdas_profiles in H.
  apply mbind_Ok in H as (l' & h1 & [-> Hl']%load_lambdas_inv & H).
  pose proof (holds_inj BFloat _ _ _ _ Hl' Hl) as [= ->]. clear Hl'.
  apply mbind_Ok in H as (f & h2 & [Hf ->]%lift_inv & H).
  apply mbind_Ok in H as (xs & h3 & Hxs & H).
  apply radii_samples_store in Hxs as (xv & Hxv & Hxs & Wx).
  apply mbind_Ok in H as (x & h4 & [-> Hx]%load_float_inv & H).
  rewrite (holds_inj BFloat _ _ _ _ Hx Hxs) in H. clear x Hx.
  apply new_load_inv in H.
  2:{ rewrite (get_lambda_poly_func_inv _ _ _ Hf). by apply wf_amap. }
  apply mret_inv in H as [-> _].
  apply lambdas_profiles_inv. by exists f, xv.
Qed.

Lemma components_store xv kw (l : list (f64 * list f64)) h comps h' :
  np.wf xv ->
  mapM (fun '(w, p) =>
          l_func ← lift (get_lambda_poly_func [w] [p]);
          y ← new_float (l_func xv);
          y ← load_float y;
          mret (Plot xv y (component_label p) None (Some "--") kw)) l h
  = Ok (comps, h') ->
  comps = (fun '(w, p) =>
             Plot xv (np.amap (reconstruct [w] [p]) xv) (component_label p)
               None (Some "--") kw) <$> l.
Proof.
  intros Wx. revert h comps h'.
  induction l as [|[w p] l IH]; intros h comps h' H.
  - by apply mret_inv in H as [-> _].
  - change (mapM ?f (?x :: ?l)) with (y ← f x; k ← mapM f l; mret (y :: k))
      in H.
    apply mbind_Ok in H as (c & h1 & Hc & H).
    apply mbind_Ok in H as (cs & h2 & Hcs & H).
    apply mret_inv in H as [-> _].
    apply IH in Hcs as ->. simpl. f_equal.
    apply mbind_Ok in Hc as (lf & h3 & [Hlf ->]%lift_inv & Hc).
    apply get_lambda_poly_func_inv in Hlf as ->.
    apply mbind_Ok in Hc as (y & h4 & [-> ->]%alloc_inv & Hc).
    apply mbind_Ok in Hc as (y' & h5 & [-> Hy]%load_float_inv & Hc).
    apply mret_inv in Hc as [-> _].
    by rewrite (holds_inj BFloat _ _ _ _ Hy
                  (holds_new BFloat h _ (wf_amap _ _ Wx))).
Qed.

Lemma lambdas_components_store_refines h lambdas l ax params degree kw a h' :
  holds h lambdas (np.Arr1 l) ->
  mem.plot_lambdas_components lambdas ax params degree kw h = Ok (a, h') ->
  values_plot_lambdas_components l ax params degree kw = Ok a.
Proof.
  intros Hl H. unfold mem.plot_lambdas_components in H.
  apply mbind_Ok in H as (l' & h1 & [-> Hl']%load_lambdas_inv & H).
  pose proof (holds_inj BFloat _ _ _ _ Hl' Hl) as [= ->]. clear Hl'.
  apply mbind_Ok in H as (f & h2 & [Hf ->]%lift_inv & H).
  apply mbind_Ok in H as (xs & h3 & Hxs & H).
  apply radii_samples_store in Hxs as (xv & Hxv & Hxs & Wx).
  apply mbind_Ok in H as (x & h4 & [-> Hx]%load_float_inv & H).
  rewrite (holds_inj BFloat _ _ _ _ Hx Hxs) in H. clear x Hx.
  apply new_load_inv in H.
  2:{ rewrite (get_lambda_poly_func_inv _ _ _ Hf). by apply wf_amap. }
  apply mbind_Ok in H as (comps & h5 & Hc & H).
  apply components_store in Hc as ->; [|done].
  apply mret_inv in H as [-> _].
  apply lambdas_components_inv. by exists f, xv.
Qed.

End store_refinement.

Section store_claims.
Context `{C : Collaborators}.
#[local] Abbreviation values_plot_tetrads_profiles := plot_tetrads_profiles.
#[local] Abbreviation values_plot_lambdas_profiles := plot_lambdas_profiles.
#[local] Abbreviation values_plot_lambdas_components :=
  plot_lambdas_components.
Import mem.

Lemma holds_prefix {A} (box : list A -> buffer) h h' a v :
  h `prefix_of` h' -> holds_in box h a v -> holds_in box h' a v.
Proof.
  intros Hp (d & Hd & Hr). exists d. split; [|done].
  by eapply prefix_lookup_Some.
Qed.

(** C10.  Over the store, each of the three functions only adds buffers:
    every buffer that existed before the call, the caller's lambdas or taus
    among them, holds after the call what it held before.  The writes of
    the [drop0] block go to arrays allocated by the call itself (the
    results of [@], seen through [squeeze], and the filter of
    [np.isclose]).  No state is kept from one call to the next: what a call
    draws is what the function on values draws for the value that the
    input array holds.  [params] is a value that no operation updates. *)
Theorem inputs_unchanged (h h' : store) (a : axes) :
  (forall lambdas ax params degree kw,
     mem.plot_lambdas_components lambdas ax params degree kw h = Ok (a, h') ->
     h `prefix_of` h' /\
     exists l, holds h lambdas (np.Arr1 l) /\ holds h' lambdas (np.Arr1 l) /\
       values_plot_lambdas_components l ax params degree kw = Ok a) /\
  (forall lambdas ax params degree kw,
     mem.plot_lambdas_profiles lambdas ax params degree kw h = Ok (a, h') ->
     h `prefix_of` h' /\
     exists l, holds h lambdas (np.Arr1 l) /\ holds h' lambdas (np.Arr1 l) /\
       values_plot_lambdas_profiles l ax params degree kw = Ok a) /\
  (forall ts params index logy drop0 kw,
     mem.plot_tetrads_profiles ts params index logy drop0 kw h = Ok (a, h') ->
     h `prefix_of` h' /\
     forall v, holds h ts v ->
       holds h' ts v /\
       (helpers_wf ->
        values_plot_tetrads_profiles v params index logy drop0 kw = Ok a)).
Proof.
  assert (h `prefix_of` h) as Hrefl by done.
  split; [|split].
  - intros lambdas ax params degree kw H.
    destruct (keeps_lambdas_components h lambdas ax params degree kw
                h a h' Hrefl H) as [Hp _].
    split; [done|].
    pose proof H as H'. unfold mem.plot_lambdas_components in H'.
    apply mbind_Ok in H' as (l & h1 & [-> Hl]%load_lambdas_inv & _).
    exists l. split; [done|]. split; [by eapply holds_prefix|].
    by eapply lambdas_components_store_refines.
  - intros lambdas ax params degree kw H.
    destruct (keeps_lambdas_profiles h lambdas ax params degree kw
                h a h' Hrefl H) as [Hp _].
    split; [done|].
    pose proof H as H'. unfold mem.plot_lambdas_profiles in H'.
    apply mbind_Ok in H' as (l & h1 & [-> Hl]%load_lambdas_inv & _).
    exists l. split; [done|]. split; [by eapply holds_prefix|].
    by eapply lambdas_profiles_store_refines.
  - intros ts params index logy drop0 kw H.
    destruct (keeps_tetrads_profiles h ts params index logy drop0 kw
                h a h' Hrefl H) as [Hp _].
    split; [done|].
    intros v Hv. split; [by eapply holds_prefix|].
    intros Hw. by eapply tetrads_store_refines.
Qed.

End store_claims.

(** ** Runs on the sample collaborators *)

Section runs.
Import sample.

Lemma sample_basis_ok : basis_ok.
Proof. intros xs. eexists. split; reflexivity. Qed.

(** C1 (as stated, refuted).  Four zero rows of taus, [drop0=True], on the
    sample collaborators (a zero tau gives zero whatever the basis is).  The
    first line sample sits at 57, an anchor, its value is 0 and it is
    suppressed all the same: the line has no exemption.  And the marker of
    row 0 at 64, an anchor of the list, is 0 and suppressed: row 0 keeps
    its zero at 57 only. *)
Lemma tetrads_anchor_zero_suppressed :
  exists ax0 ax1 : axes,
    plot_tetrads_profiles sample.zeros4 None "z" false false tt = Ok ax0 /\
    plot_tetrads_profiles sample.zeros4 None "z" false true tt = Ok ax1 /\
    feqb (of_int 57) <$> line_x ax1 0 = Some true /\
    is_zero <$> line_y ax0 0 0 = Some true /\
    line_y ax1 0 0 = Some nan /\
    feqb (of_int 64) <$> marker_x ax1 7 = Some true /\
    is_zero <$> marker_y ax0 0 7 = Some true /\
    marker_y ax1 0 7 = Some nan /\
    is_zero <$> marker_y ax1 0 0 = Some true.
Proof. apply both_Ok. vm_compute. by repeat split. Qed.

Lemma tetrads_drop0_four_rows_witness :
  basis_ok /\ np.shape eye4 = [4; 4] /\
  exists ax0,
    plot_tetrads_profiles eye4 None "radii" false false tt = Ok ax0 /\
    exists ax1 xs ys ys' linex liney liney',
      plot_tetrads_profiles eye4 None "radii" false true tt = Ok ax1 /\
      marker_series ax0 = Some (xs, ys) /\
      marker_series ax1 = Some (xs, ys') /\
      line_series ax0 = Some (linex, liney) /\
      line_series ax1 = Some (linex, liney') /\
      (forall i j a z,
         np.item1 anchors i = Some a ->
         np.item1 (np.arange 57 72) j = Some z ->
         exists y,
           np.item2 ys i j = Some y /\
           np.item2 ys' i j
           = Some (if isclose y fzero && negb (z =? a)%Z then nan else y)) /\
      (forall i k, i < 4 -> k < 1000 ->
         exists y,
           np.item2 liney i k = Some y /\
           np.item2 liney' i k = Some (if isclose y fzero then nan else y)).
Proof.
  destruct (returns_Ok (plot_tetrads_profiles (C:=collaborators) eye4 None "radii" false false tt))
    as [ax0 E]; [by vm_compute|].
  split; [exact sample_basis_ok|]. split; [reflexivity|].
  exists ax0. split; [exact E|].
  exact (tetrads_drop0_four_rows (C:=collaborators) eye4 None "radii" false tt ax0
           sample_basis_ok eq_refl E).
Defined.

Lemma z_not_radii : "z" ∉ ["radii"; "elements"].
Proof. apply (bool_decide_unpack _). by vm_compute. Qed.

(** C4 (as stated, refuted).  With index "z" the tick labels set by the
    call include Pm, at the fifth tick. *)
Lemma tetrads_ticklabels_include_Pm :
  exists ax : axes,
    plot_tetrads_profiles ones None "z" false false tt = Ok ax /\
    (xticklabels ax ≫= fun labels => labels !! 4) = Some "Pm".
Proof. apply one_Ok. by vm_compute. Qed.

Lemma tetrads_atomic_number_axis_witness :
  ("z" ∉ ["radii"; "elements"]) /\
  exists ax,
    plot_tetrads_profiles ones None "z" false false tt = Ok ax /\
    (exists ys,
       marker_series ax = Some (np.astype_float (np.arange 57 72), ys)) /\
    (exists liney,
       line_series ax
       = Some (np.linspace (of_int 57) (of_int 71) 1000, liney)) /\
    np.arange 57 72
    = np.Arr1 [57; 58; 59; 60; 61; 62; 63; 64; 65; 66; 67; 68; 69; 70; 71]%Z /\
    xticklabels ax
    = Some ["La"; "Ce"; "Pr"; "Nd"; "Pm"; "Sm"; "Eu"; "Gd"; "Tb"; "Dy"; "Ho";
            "Er"; "Tm"; "Yb"; "Lu"].
Proof.
  destruct (returns_Ok (plot_tetrads_profiles (C:=collaborators) ones None "z" false false tt))
    as [ax E]; [by vm_compute|].
  split; [exact z_not_radii|]. exists ax. split; [exact E|].
  exact (tetrads_atomic_number_axis (C:=collaborators) ones None "z" false false tt ax
           z_not_radii E).
Defined.

Lemma tetrads_two_series_witness :
  exists ax,
    plot_tetrads_profiles eye4 None "radii" false true tt = Ok ax /\
    let z := np.arange 57 72 in
    let linez := np.linspace (of_int 57) (of_int 71) 1000 in
    exists xs ys linex liney fz y flinez l,
      artists ax = [Spider ys xs false (Some 0%Z) false None tt;
                    Spider liney linex false None false (Some "") tt] /\
      z = np.Arr1 [57; 58; 59; 60; 61; 62; 63; 64; 65; 66; 67; 68; 69; 70; 71]%Z
      /\
      get_tetrads_function None (np.astype_float z) false = Ok fz /\
      np.matmul (np.atleast_2d eye4) fz = Ok y /\
      get_tetrads_function None linez false = Ok flinez /\
      np.matmul (np.atleast_2d eye4) flinez = Ok l /\
      drop_zeros z (np.squeeze y) (np.squeeze l) = Ok (ys, liney) /\
      np.shape linez = [1000] /\
      (forall k, k < 1000 ->
         exists q, np.item1 linez k = Some (Fin q) /\
           (q == 57 + inject_Z (Z.of_nat k) * (14 / 999))%Q) /\
      (exists q0 q999, np.item1 linez 0 = Some (Fin q0) /\
         np.item1 linez 999 = Some (Fin q999) /\ (q0 == 57)%Q /\ (q999 == 71)%Q).
Proof.
  destruct (returns_Ok (plot_tetrads_profiles (C:=collaborators) eye4 None "radii" false true tt))
    as [ax E]; [by vm_compute|].
  exists ax. split; [exact E|].
  exact (tetrads_two_series (C:=collaborators) eye4 None "radii" false true tt ax E).
Defined.

Lemma tetrads_coordinate_transform_witness :
  exists ax,
    plot_tetrads_profiles eye4 None "elements" true true tt = Ok ax /\
    let z := np.astype_float (np.arange 57 72) in
    let linez := np.linspace (of_int 57) (of_int 71) 1000 in
    exists xs linex ys liney,
      REE_z_to_radii z = Ok xs /\ REE_z_to_radii linez = Ok linex /\
      marker_series ax = Some (xs, ys) /\
      line_series ax = Some (linex, liney).
Proof.
  destruct (returns_Ok (plot_tetrads_profiles (C:=collaborators) eye4 None "elements" true true tt))
    as [ax E]; [by vm_compute|].
  exists ax. split; [exact E|].
  exact (tetrads_coordinate_transform (C:=collaborators) eye4 None "elements" true true tt ax E).
Defined.

Lemma sample_basis_finite : basis_finite.
Proof.
  intros xs basis Hxs H.
  cbv [get_tetrads_function collaborators tetrads_function] in H.
  injection H as <-. apply all_Forall in Hxs. simpl in Hxs.
  apply all_rows.
  repeat constructor; apply Forall_fmap;
    (eapply Forall_impl; [exact Hxs|]); by intros [x|].
Qed.

(** C7 (as stated, refuted).  The zero tau vector with [drop0=True] gives
    no output at all, the call raises (see C2); and with four zero rows the
    marker of row 0 at 57 is left at zero instead of being suppressed. *)
Lemma tetrads_zero_taus_not_suppressed :
  plot_tetrads_profiles zeros None "z" false true tt = Raise ValueError /\
  exists ax0 ax1 : axes,
    plot_tetrads_profiles zeros4 None "z" false false tt = Ok ax0 /\
    plot_tetrads_profiles zeros4 None "z" false true tt = Ok ax1 /\
    feqb (of_int 57) <$> marker_x ax1 0 = Some true /\
    is_zero <$> marker_y ax0 0 0 = Some true /\
    is_zero <$> marker_y ax1 0 0 = Some true.
Proof.
  split; [by vm_compute|]. apply both_Ok. vm_compute. by repeat split.
Qed.

Lemma tetrads_zero_taus_witness :
  basis_ok /\ basis_finite /\
  length (replicate 4 fzero) = 4 /\
  np.all is_zero (np.Arr1 (replicate 4 fzero)) = true /\
  np.all finite (np.Arr1 [of_int 60]) = true /\
  np.shape zeros4 = [4; 4] /\ np.all is_zero zeros4 = true /\
  exists ax0,
    plot_tetrads_profiles zeros4 None "z" false false tt = Ok ax0 /\
    (exists basis y fltr out,
       get_tetrads_function None (np.Arr1 [of_int 60]) false = Ok basis /\
       np.matmul (np.atleast_2d (np.Arr1 (replicate 4 fzero))) basis = Ok y /\
       np.shape y = [1; length [of_int 60]] /\
       np.all is_zero y = true /\
       np.ufunc2 isclose (np.squeeze y) (np.Arr0 fzero) = Ok fltr /\
       np.setitem_mask (np.squeeze y) fltr nan = Ok out /\
       np.all is_nan out = true) /\
    (exists ax1,
       plot_tetrads_profiles zeros4 None "z" false true tt = Ok ax1 /\
       (forall i k, i < 4 -> k < 1000 ->
          is_zero <$> line_y ax0 i k = Some true /\
          line_y ax1 i k = Some nan) /\
       (forall i j a z,
          np.item1 anchors i = Some a ->
          np.item1 (np.arange 57 72) j = Some z ->
          exists y,
            marker_y ax0 i j = Some y /\ is_zero y = true /\
            marker_y ax1 i j = Some (if (z =? a)%Z then y else nan))).
Proof.
  destruct (returns_Ok (plot_tetrads_profiles (C:=collaborators) zeros4 None
                          "z" false false tt))
    as [ax0 E]; [by vm_compute|].
  split; [exact sample_basis_ok|]. split; [exact sample_basis_finite|].
  do 5 (split; [reflexivity|]).
  exists ax0. split; [exact E|].
  exact (tetrads_zero_taus (C:=collaborators) (replicate 4 fzero) [of_int 60]
           zeros4 None "z" false tt ax0 sample_basis_ok sample_basis_finite
           eq_refl eq_refl eq_refl eq_refl eq_refl E).
Defined.

Lemma lambdas_single_term_witness :
  exists a,
    plot_lambdas_components [of_int 2; of_int 3] None None 2 tt = Ok a /\
    (forall w p,
       exists g, get_lambda_poly_func [w] [p] = Ok g /\
         forall xs, g xs = np.amap (reconstruct [w] [p]) xs) /\
    (forall w p x, feq (reconstruct [w] [p] x) (fmul w (poly p x))) /\
    (exists xs regression,
       artists a
       = regression
         :: ((fun '(w, p) =>
                Plot xs (np.amap (reconstruct [w] [p]) xs) (component_label p)
                  None (Some "--") tt)
               <$> zip [of_int 2; of_int 3] (_get_params None 2))) /\
    (forall p q, component_label p = component_label q <-> length p = length q).
Proof.
  destruct (returns_Ok (plot_lambdas_components (C:=collaborators)
                          [of_int 2; of_int 3] None None 2 tt))
    as [a E]; [by vm_compute|].
  exists a. split; [exact E|].
  exact (lambdas_single_term (C:=collaborators) [of_int 2; of_int 3] None None
           2 tt a E).
Defined.

Lemma radii_charge3_coordination8_witness :
  (exists a,
     plot_lambdas_profiles [of_int 2; of_int 3] None None 2 tt = Ok a /\
     exists hi lo,
       np.max (np.Arr1 (get_ionic_radii (REE true) 3 8)) = Ok hi /\
       np.min (np.Arr1 (get_ionic_radii (REE true) 3 8)) = Ok lo /\
       Forall (fun art => exists y label color ls,
                 art = Plot (np.linspace hi lo 100) y label color ls tt)
         (artists a)) /\
  (exists ax,
     plot_tetrads_profiles eye4 None "radii" false true tt = Ok ax /\
     exists xs linex ys liney,
       z_to_radii 3 8 (np.astype_float (np.arange 57 72)) = Ok xs /\
       z_to_radii 3 8 (np.linspace (of_int 57) (of_int 71) 1000) = Ok linex /\
       marker_series ax = Some (xs, ys) /\
       line_series ax = Some (linex, liney)).
Proof.
  destruct (radii_charge3_coordination8 (C:=collaborators)) as [Hl Ht].
  split.
  - destruct (returns_Ok (plot_lambdas_profiles (C:=collaborators)
                            [of_int 2; of_int 3] None None 2 tt))
      as [a E]; [by vm_compute|].
    exists a. split; [exact E|].
    exact (Hl [of_int 2; of_int 3] None None 2 tt a (or_intror E)).
  - destruct (returns_Ok (plot_tetrads_profiles (C:=collaborators) eye4 None
                            "radii" false true tt))
      as [ax E]; [by vm_compute|].
    exists ax. split; [exact E|].
    refine (Ht eye4 None "radii" false true tt ax _ E).
    apply (bool_decide_unpack _). by vm_compute.
Defined.

Lemma sample_helpers_wf : mem.helpers_wf.
Proof.
  split.
  - intros x sum r _ H.
    cbv [get_tetrads_function collaborators tetrads_function] in H.
    destruct x as [?|xs|? ?]; try done.
    destruct sum; injection H as <-; [done|]. simpl.
    repeat constructor; by rewrite length_fmap.
  - intros x r Wx H. cbv [z_to_radii collaborators linear_radii] in H.
    injection H as <-. by apply wf_amap.
Qed.

Lemma inputs_unchanged_witness :
  mem.helpers_wf /\ mem.holds store0 eye4_array eye4 /\
  exists a h',
    mem.plot_tetrads_profiles eye4_array None "radii" false true tt store0
    = Ok (a, h') /\
    store0 `prefix_of` h' /\
    forall v, mem.holds store0 eye4_array v ->
      mem.holds h' eye4_array v /\
      (mem.helpers_wf ->
       plot_tetrads_profiles v None "radii" false true tt = Ok a).
Proof.
  split; [exact sample_helpers_wf|].
  split; [by eexists|].
  destruct (returns_Ok (mem.plot_tetrads_profiles (C:=collaborators)
                          eye4_array None "radii" false true tt store0))
    as [[a h'] E]; [by vm_compute|].
  exists a, h'. split; [exact E|].
  exact (proj2 (proj2 (inputs_unchanged (C:=collaborators) store0 h' a))
           eye4_array None "radii" false true tt E).
Defined.

End runs.
